(** * Link checker (scripts/link-checker.js): a shallow embedding

    The script probes a locally running site, fetches a fixed list of seed
    pages, pulls the internal [href] values out of each page with a regular
    expression, issues one HEAD request per link it has not seen yet, checks
    that a fixed list of static files exists and collects every failure in
    [brokenLinks].

    JavaScript strings are modelled as [string], one character per code
    unit (the script tests and rewrites ASCII prefixes only, and a pattern
    without the unicode flag works on code units); the network and the file
    system are parameters of the run (section variables), so every theorem
    holds for whatever the server answers and whatever is on disk.  Console
    output has no influence on the state and is left out. *)

From Stdlib Require Import ZArith Ascii String List Bool Lia.
From Stdlib Require Import DecimalString.
From stdpp Require Import base decidable list strings gmap.

Import ListNotations.
Local Open Scope string_scope.
Local Open Scope list_scope.

(* stdpp freezes string concatenation under [simpl]; the proofs below
   compute with it on literal prefixes. *)
#[local] Arguments String.append !_ _ / : simpl nomatch.

(** ** JavaScript string primitives *)

Module JsString.

(** [s.startsWith(p)]: [p] is a prefix of [s] (lemma [startsWith_prefix]
    relates it to [String.prefix]). *)
Fixpoint startsWith (s p : string) {struct p} : bool :=
  match p, s with
  | EmptyString, _ => true
  | String a p', String b s' => Ascii.eqb a b && startsWith s' p'
  | String _ _, EmptyString => false
  end.

(** The remainder of [s] after the prefix [p], when [s] starts with [p]. *)
Fixpoint strip_prefix (p s : string) : option string :=
  match p, s with
  | EmptyString, _ => Some s
  | String a p', String b s' =>
      if Ascii.eqb a b then strip_prefix p' s' else None
  | String _ _, EmptyString => None
  end.

(** [s.replace(pat, rep)] for a string pattern: only the leftmost
    occurrence of [pat] is replaced.  (The replacement strings of the
    script contain no [$] pattern.) *)
Fixpoint replace (s pat rep : string) : string :=
  match strip_prefix pat s with
  | Some rest => rep +:+ rest
  | None =>
      match s with
      | EmptyString => EmptyString
      | String c s' => String c (replace s' pat rep)
      end
  end.

End JsString.

Import JsString.

(** ** Configuration *)

Definition BASE_URL : string := "http://localhost:4321/blog-monakit".
Definition TIMEOUT : Z := 5000.

Definition PAGES_TO_CHECK : list string :=
  [ "/";
    "/blogs";
    "/investment-results";
    "/blogs/diversified-investment-feature-complete" ].

Definition FILES_TO_CHECK : list string :=
  [ "src/pages/index.astro";
    "src/pages/blogs/index.astro";
    "src/pages/investment-results/index.astro";
    "src/layouts/Layout.astro" ].

(** ** normalizeLink and isInternalLink *)

Definition isInternalLink (link : string) : bool :=
  startsWith link "/blog-monakit/" ||
  startsWith link "/" ||
  startsWith link "./" ||
  startsWith link "../".

Definition normalizeLink (link : string) : string :=
  if startsWith link "/blog-monakit/" then replace link "/blog-monakit" ""
  else if startsWith link "/" then link
  else "/" +:+ link.

(** ** extractLinks

    The pattern of [hrefRegex] is the literal [href=], a character of the
    class Q (a double or a single quote), a non-empty run of characters that
    are not in Q (the captured group), and a character of Q again; it has
    the global flag.  The run is greedy and what follows it must be in Q,
    so the only candidate at a given start position is the maximal run. *)

Module Regex.

Definition dquote : ascii := "034"%char.
Definition squote : ascii := "039"%char.

(** The class Q. *)
Definition is_quote (c : ascii) : bool :=
  Ascii.eqb c dquote || Ascii.eqb c squote.

(** The longest run of characters outside Q at the head of [s], and what
    is left after it. *)
Fixpoint span_value (s : string) : string * string :=
  match s with
  | EmptyString => (EmptyString, EmptyString)
  | String c s' =>
      if is_quote c then (EmptyString, s)
      else let '(v, rest) := span_value s' in (String c v, rest)
  end.

(** A match of the whole pattern starting at the first character of [s]:
    the captured group and the text after the match. *)
Definition match_here (s : string) : option (string * string) :=
  match strip_prefix "href=" s with
  | Some (String q s1) =>
      if is_quote q then
        match span_value s1 with
        | (String c v, String _ rest) => Some (String c v, rest)
        | _ => None
        end
      else None
  | _ => None
  end.

(** [hrefRegex.exec(html)], with [s] the part of [html] from [lastIndex]
    on: the leftmost match, or [None] (JavaScript [null]). *)
Fixpoint exec (s : string) : option (string * string) :=
  match match_here s with
  | Some m => Some m
  | None =>
      match s with
      | EmptyString => None
      | String _ s' => exec s'
      end
  end.

(** No character of [v] is a quote. *)
Fixpoint quote_free (v : string) : bool :=
  match v with
  | EmptyString => true
  | String c v' => negb (is_quote c) && quote_free v'
  end.

End Regex.

(** The [while ((match = hrefRegex.exec(html)) !== null)] loop.  Every match
    consumes at least one character, so [String.length html] iterations
    are enough (lemma [scan_fuel] below). *)
Fixpoint scan (fuel : nat) (s : string) (links : list string) : list string :=
  match fuel with
  | O => links
  | S fuel' =>
      match Regex.exec s with
      | None => links
      | Some (link, rest) =>
          scan fuel' rest
               (if isInternalLink link then links ++ [link] else links)
      end
  end.

(** Every value captured by the pattern in [s], in order of appearance,
    whether internal or not (the loop of [extractLinks] without its test). *)
Fixpoint matchAll (fuel : nat) (s : string) : list string :=
  match fuel with
  | O => []
  | S fuel' =>
      match Regex.exec s with
      | None => []
      | Some (v, rest) => v :: matchAll fuel' rest
      end
  end.

Definition hrefValues (html : string) : list string :=
  matchAll (String.length html) html.

(** [new Set(links)] followed by a spread: the elements in the order of
    their first insertion. *)
Definition Set_add (acc : list string) (x : string) : list string :=
  if bool_decide (x ∈ acc) then acc else acc ++ [x].

Definition Set_spread (links : list string) : list string :=
  fold_left Set_add links [].

Definition extractLinks (html : string) : list string :=
  Set_spread (scan (String.length html) html []).

(** ** The run *)

Inductive Method := GET | HEAD.

#[global] Instance Method_eq_dec : EqDecision Method.
Proof. solve_decision. Defined.

(** What [await fetch(...)] gives: the promise rejects with an error
    message, or resolves to a response with a status code whose body can be
    read ([Some html]) or whose [text()] rejects ([None]). *)
Inductive Outcome :=
| Throw (message : string)
| Response (status : Z) (text : option string).

(** [response.ok] *)
Definition ok (status : Z) : bool := (200 <=? status)%Z && (status <=? 299)%Z.

(** Ghost history of the network calls, labelled with their call site. *)
Inductive Call :=
| Probe
| PageFetch (page : string)
| LinkCheck (sourcePage link : string).

Record Request := mkRequest { call : Call; method : Method; url : string }.

Inductive Status :=
| StatusCode (code : Z)
| StatusTimeout
| StatusNotFound.

Inductive Kind := KindPage | KindLink | KindFile.

(** An entry of [brokenLinks]. *)
Record Finding := mkFinding {
  page : string;
  link : string;
  status : Status;
  type : Kind;
  error : option string
}.

(** The fields of a [LinkChecker] object, and the history of its requests. *)
Record State := mkState {
  brokenLinks : list Finding;
  checkedLinks : gset string;
  serverRunning : bool;
  trace : list Request
}.

(** [new LinkChecker()] *)
Definition constructor : State :=
  {| brokenLinks := []; checkedLinks := ∅; serverRunning := false; trace := [] |}.

Definition push (f : Finding) (st : State) : State :=
  {| brokenLinks := brokenLinks st ++ [f];
     checkedLinks := checkedLinks st;
     serverRunning := serverRunning st;
     trace := trace st |}.

Definition set_serverRunning (b : bool) (st : State) : State :=
  {| brokenLinks := brokenLinks st;
     checkedLinks := checkedLinks st;
     serverRunning := b;
     trace := trace st |}.

Definition add_checked (l : string) (st : State) : State :=
  {| brokenLinks := brokenLinks st;
     checkedLinks := {[ l ]} ∪ checkedLinks st;
     serverRunning := serverRunning st;
     trace := trace st |}.

(** The static files listed inside [checkStaticFiles]. *)
Definition staticFiles : list string :=
  [ "public/enhanced_dividend_result_20251016_145023.html";
    "public/netnet_result.html" ].

(** ** The history of a run *)

(** The raw links for which an existence check was issued, in order. *)
Definition link_of (r : Request) : option string :=
  match call r with LinkCheck _ l => Some l | _ => None end.

Definition checkedRaw (tr : list Request) : list string := omap link_of tr.

(** The seed pages that were fetched, in order. *)
Definition page_of (r : Request) : option string :=
  match call r with PageFetch p => Some p | _ => None end.

Definition fetchedPages (tr : list Request) : list string := omap page_of tr.

(** The number of existence checks sent for the normalized link [n]:
    the HEAD requests to [BASE_URL + n]. *)
Definition existenceChecks (n : string) (tr : list Request) : nat :=
  length (filter (fun r => method r = HEAD /\ url r = BASE_URL +:+ n) tr).

(** Every request is the one its call site builds. *)
Definition well_formed (r : Request) : Prop :=
  match call r with
  | Probe => method r = GET /\ url r = BASE_URL +:+ "/"
  | PageFetch p => method r = GET /\ url r = BASE_URL +:+ p
  | LinkCheck _ l =>
      method r = HEAD /\ url r = BASE_URL +:+ normalizeLink l /\
      isInternalLink l = true
  end.

(** What [checkLink] appends to [brokenLinks] for a link it checks. *)
Definition link_findings (sourcePage l : string) (o : Outcome) : list Finding :=
  match o with
  | Response code _ =>
      if ok code then []
      else [ {| page := sourcePage; link := normalizeLink l;
                status := StatusCode code; type := KindLink;
                error := None |} ]
  | Throw message =>
      [ {| page := sourcePage; link := normalizeLink l;
           status := StatusTimeout; type := KindLink;
           error := Some message |} ]
  end.

Definition missing_file (file : string) : Finding :=
  {| page := "static"; link := file; status := StatusNotFound;
     type := KindFile; error := None |}.

Section Run.

(** The server: the answer to the [n]-th request of the run. *)
Variable net : nat -> Method -> string -> Outcome.

(** The file system: [process.cwd()], [path.join] and [fs.existsSync]. *)
Variable cwd : string.
Variable path_join : string -> string -> string.
Variable existsSync : string -> bool.

Definition fetch (c : Call) (m : Method) (u : string) (st : State)
  : Outcome * State :=
  (net (length (trace st)) m u,
   {| brokenLinks := brokenLinks st;
      checkedLinks := checkedLinks st;
      serverRunning := serverRunning st;
      trace := trace st ++ [mkRequest c m u] |}).

Definition checkServerStatus (st : State) : State :=
  let '(o, st) := fetch Probe GET (BASE_URL +:+ "/") st in
  match o with
  | Response status _ =>
      if ok status then set_serverRunning true st
      else set_serverRunning false st
  | Throw _ => set_serverRunning false st
  end.

Definition checkLink (sourcePage link : string) (st : State) : State :=
  if bool_decide (link ∈ checkedLinks st) then st
  else
    let st := add_checked link st in
    let absoluteLink := normalizeLink link in
    let '(o, st) :=
      fetch (LinkCheck sourcePage link) HEAD (BASE_URL +:+ absoluteLink) st in
    match o with
    | Response status _ =>
        if negb (ok status) then
          push {| page := sourcePage; link := absoluteLink;
                  status := StatusCode status; type := KindLink;
                  error := None |} st
        else st
    | Throw message =>
        push {| page := sourcePage; link := normalizeLink link;
                status := StatusTimeout; type := KindLink;
                error := Some message |} st
    end.

Definition checkLinks (sourcePage : string) (links : list string)
  (st : State) : State :=
  fold_left (fun st link => checkLink sourcePage link st) links st.

Definition checkPageLinks (page : string) (st : State) : State :=
  if negb (serverRunning st) then st
  else
    let '(o, st) := fetch (PageFetch page) GET (BASE_URL +:+ page) st in
    match o with
    | Response status text =>
        if negb (ok status) then
          push {| page := page; link := page;
                  status := StatusCode status; type := KindPage;
                  error := None |} st
        else
          match text with
          | Some html => checkLinks page (extractLinks html) st
          | None => st
          end
    | Throw _ => st
    end.

Definition checkPages (pages : list string) (st : State) : State :=
  fold_left (fun st page => checkPageLinks page st) pages st.

Definition checkStaticFile (st : State) (file : string) : State :=
  let fullPath := path_join cwd file in
  if existsSync fullPath then st
  else push {| page := "static"; link := file;
               status := StatusNotFound; type := KindFile;
               error := None |} st.

Definition checkStaticFiles (st : State) : State :=
  fold_left checkStaticFile staticFiles st.

(** The state right after the request for [page] has been sent. *)
Definition fetched (page : string) (st : State) : State :=
  snd (fetch (PageFetch page) GET (BASE_URL +:+ page) st).

Definition page_finding (page : string) (code : Z) : Finding :=
  {| page := page; link := page; status := StatusCode code;
     type := KindPage; error := None |}.

(** The first request of a run. *)
Definition probe_request : Request := mkRequest Probe GET (BASE_URL +:+ "/").

Definition probe_ok : bool :=
  match net 0 GET (BASE_URL +:+ "/") with
  | Response code _ => ok code
  | Throw _ => false
  end.

(** [file] is not on disk. *)
Definition is_missing (file : string) : Prop :=
  existsSync (path_join cwd file) = false.

(** [run()]: probe, seed pages, static files.  None of the three phases
    lets an exception escape, so the [catch] of [run] is never entered. *)
Definition run : State :=
  let st := checkServerStatus constructor in
  let st := checkPages PAGES_TO_CHECK st in
  checkStaticFiles st.

End Run.

#[global] Instance is_missing_dec cwd path_join existsSync file :
  Decision (is_missing cwd path_join existsSync file).
Proof. unfold is_missing. apply _. Defined.

(** The invariant behind the dedupe: the raw links checked so far are
    pairwise distinct and all recorded in [checkedLinks]. *)
Definition dedup_inv (st : State) : Prop :=
  NoDup (checkedRaw (trace st)) /\
  forall l, l ∈ checkedRaw (trace st) -> l ∈ checkedLinks st.

(** ** displayResults

    The report is the list of the arguments of the calls to
    [console.log], one string per call, in order.  A call writes its
    argument and a line break, so the lines that appear on the terminal
    are the pieces of the arguments between line breaks ([printed]). *)

Module Report.

Definition newline : string := String "010"%char EmptyString.

(** [c.toUpperCase()] on one code unit; the script applies it to the
    lower-case ASCII words [page], [link] and [file] only. *)
Definition upper (c : ascii) : ascii :=
  let n := nat_of_ascii c in
  if Nat.leb 97 n && Nat.leb n 122 then ascii_of_nat (n - 32) else c.

Fixpoint toUpperCase (s : string) : string :=
  match s with
  | EmptyString => EmptyString
  | String c s' => String (upper c) (toUpperCase s')
  end.

(** [s.repeat(n)] *)
Fixpoint repeat (s : string) (n : nat) : string :=
  match n with
  | O => EmptyString
  | S n' => s +:+ repeat s n'
  end.

(** A number inside a template literal: its decimal digits. *)
Definition nat_text (n : nat) : string :=
  NilZero.string_of_uint (Nat.to_uint n).

Definition Z_text (z : Z) : string :=
  NilZero.string_of_int (Z.to_int z).

(** The value stored in the [type] field. *)
Definition type_text (k : Kind) : string :=
  match k with
  | KindPage => "page"
  | KindLink => "link"
  | KindFile => "file"
  end.

(** The [status] field inside a template literal. *)
Definition status_text (s : Status) : string :=
  match s with
  | StatusCode code => Z_text code
  | StatusTimeout => "TIMEOUT"
  | StatusNotFound => "NOT_FOUND"
  end.

(** [if (broken.error)]: an absent field and the empty string are falsy. *)
Definition truthy (e : option string) : bool :=
  match e with
  | Some (String _ _) => true
  | _ => false
  end.

Definition error_lines (e : option string) : list string :=
  match e with
  | Some (String c m) => [ "   エラー: " +:+ String c m ]
  | _ => []
  end.

(** The lines printed by the callback of [forEach] for the finding at
    position [index]. *)
Definition block (index : nat) (broken : Finding) : list string :=
  [ nat_text (index + 1) +:+ ". " +:+ toUpperCase (type_text (type broken));
    "   ページ: " +:+ page broken;
    "   リンク: " +:+ link broken;
    "   ステータス: " +:+ status_text (status broken) ]
  ++ error_lines (error broken)
  ++ [ "" ].

(** [brokenLinks.forEach(...)], from position [index] on. *)
Fixpoint forEach (index : nat) (findings : list Finding) : list string :=
  match findings with
  | [] => []
  | broken :: rest => block index broken ++ forEach (S index) rest
  end.

Definition heading : list string :=
  [ newline +:+ "📊 チェック結果"; repeat "=" 50 ].

Definition all_clear : string := "🎉 すべてのリンクが正常です！".

Definition count_line (n : nat) : string :=
  "❌ " +:+ nat_text n +:+ "個のリンクに問題があります:" +:+ newline.

Definition hints : list string :=
  [ "💡 修正方法:";
    "   - 存在しないページ: ページを作成するか、リンクを削除";
    "   - 404エラー: ファイルパスを確認";
    "   - タイムアウト: サーバーが起動しているか確認" ].

Definition displayResults (st : State) : list string :=
  heading ++
  match brokenLinks st with
  | [] => [ all_clear ]
  | _ :: _ =>
      [ count_line (length (brokenLinks st)) ]
      ++ forEach 0 (brokenLinks st)
      ++ hints
  end.

(** The count line without its final line break. *)
Definition count_text (n : nat) : string :=
  "❌ " +:+ nat_text n +:+ "個のリンクに問題があります:".

(** The lines written for [heading]: its first argument starts with a
    line break. *)
Definition heading_lines : list string :=
  [ ""; "📊 チェック結果"; repeat "=" 50 ].

Definition is_newline (c : ascii) : bool := Ascii.eqb c "010"%char.

(** The pieces of [s] between its line breaks: the lines that
    [console.log(s)] adds to the output. *)
Fixpoint split_lines (s : string) : list string :=
  match s with
  | EmptyString => [EmptyString]
  | String c s' =>
      if is_newline c then EmptyString :: split_lines s'
      else
        match split_lines s' with
        | first :: others => String c first :: others
        | [] => [String c EmptyString]
        end
  end.

(** The lines written by a sequence of calls to [console.log]. *)
Definition printed (calls : list string) : list string :=
  concat (map split_lines calls).

Fixpoint newline_free (s : string) : bool :=
  match s with
  | EmptyString => true
  | String c s' => negb (is_newline c) && newline_free s'
  end.

(** A finding none of whose texts contains a line break. *)
Definition plain (f : Finding) : bool :=
  newline_free (page f) && newline_free (link f) &&
  match error f with
  | Some message => newline_free message
  | None => true
  end.

(** The last character of a string, [d] for the empty string. *)
Fixpoint last_char (d : ascii) (s : string) : ascii :=
  match s with
  | EmptyString => d
  | String c s' => last_char c s'
  end.

End Report.

(** ** Shape of the findings and of the requests of a run *)

(** What a finding recorded while checking [pages] on a given disk looks
    like, by kind. *)
Definition finding_ok (pages : list string) (cwd : string)
  (path_join : string -> string -> string) (existsSync : string -> bool)
  (f : Finding) : Prop :=
  match type f with
  | KindPage =>
      page f ∈ pages /\ link f = page f /\ error f = None /\
      exists code, status f = StatusCode code /\ ok code = false
  | KindLink =>
      page f ∈ pages /\
      (exists raw, isInternalLink raw = true /\ link f = normalizeLink raw) /\
      ((error f = None /\
        exists code, status f = StatusCode code /\ ok code = false) \/
       (status f = StatusTimeout /\ exists message, error f = Some message))
  | KindFile =>
      page f = "static" /\ link f ∈ staticFiles /\
      status f = StatusNotFound /\ error f = None /\
      existsSync (path_join cwd (link f)) = false
  end.

(** The link [l] was extracted from the body of a successful answer to a
    request for the page [p], sent before the request number [i]. *)
Definition found_on (net : nat -> Method -> string -> Outcome)
  (tr : list Request) (i : nat) (p l : string) : Prop :=
  exists j code html,
    j < i /\
    tr !! j = Some (mkRequest (PageFetch p) GET (BASE_URL +:+ p)) /\
    net j GET (BASE_URL +:+ p) = Response code (Some html) /\
    ok code = true /\
    l ∈ extractLinks html.

(** What the request number [i] of the history [tr] looks like, by call
    site, while checking [pages]: the probe comes first; a page fetch is
    for one of [pages]; a link check is for an internal link found on one
    of [pages], fetched earlier. *)
Definition request_ok (pages : list string)
  (net : nat -> Method -> string -> Outcome) (tr : list Request)
  (i : nat) (r : Request) : Prop :=
  match call r with
  | Probe => i = 0 /\ method r = GET /\ url r = BASE_URL +:+ "/"
  | PageFetch p => p ∈ pages /\ method r = GET /\ url r = BASE_URL +:+ p
  | LinkCheck p l =>
      p ∈ pages /\ isInternalLink l = true /\
      method r = HEAD /\ url r = BASE_URL +:+ normalizeLink l /\
      found_on net tr i p l
  end.

(** Every request of the history is as [request_ok] says. *)
Definition requests_ok (pages : list string)
  (net : nat -> Method -> string -> Outcome) (tr : list Request) : Prop :=
  forall i r, tr !! i = Some r -> request_ok pages net tr i r.

(** The answer to the [i]-th request of a run has left its mark in the
    list [report]: a page finding for a seed page answered with a
    non-successful status, the finding of [checkLink] for a link whose
    check failed. *)
Definition recorded (net : nat -> Method -> string -> Outcome)
  (report : list Finding) (i : nat) (r : Request) : Prop :=
  match call r with
  | Probe => True
  | PageFetch p =>
      match net i (method r) (url r) with
      | Response code _ =>
          if ok code then True else page_finding p code ∈ report
      | Throw _ => True
      end
  | LinkCheck p l =>
      Forall (fun f => f ∈ report)
             (link_findings p l (net i (method r) (url r)))
  end.

(** A server that answers every request with a successful status. *)
Definition always_ok (net : nat -> Method -> string -> Outcome) : Prop :=
  forall n m u, exists code text, net n m u = Response code text /\ ok code = true.

(** A server on which every page is empty. *)
Definition net_empty_pages (n : nat) (m : Method) (u : string) : Outcome :=
  Response 200 (Some "").

(** ** Concrete servers and file systems *)

(** A server that is down: every request is rejected. *)
Definition net_down (n : nat) (m : Method) (u : string) : Outcome :=
  Throw "connect ECONNREFUSED".

(** A server whose home page links to [/x] with the base path and whose
    blog index links to it without; every other page is empty and every
    HEAD request succeeds. *)
Definition net_two_forms (n : nat) (m : Method) (u : string) : Outcome :=
  match m with
  | HEAD => Response 200 None
  | GET =>
      if String.eqb u (BASE_URL +:+ "/") then
        Response 200 (Some "<a href='/blog-monakit/x'>x</a>")
      else if String.eqb u (BASE_URL +:+ "/blogs") then
        Response 200 (Some "<a href='/x'>x</a>")
      else Response 200 (Some "")
  end.

(** A server that answers 404 to everything but the probe (request 0). *)
Definition net_404 (n : nat) (m : Method) (u : string) : Outcome :=
  match n with
  | O => Response 200 (Some "")
  | S _ => Response 404 (Some "not found")
  end.

Definition join_slash (dir file : string) : string := dir +:+ "/" +:+ file.

(** A disk on which every file exists, except [missing]. *)
Definition disk_without (missing : string) (p : string) : bool :=
  negb (String.eqb p missing).

(** A page in which one internal link occurs twice. *)
Definition page_with_duplicates : string :=
  "<a href='/blogs'>a</a> <a href='/blog-monakit/x'>b</a> <a href='/blogs'>c</a> <a href='mailto:me@example.com'>d</a>".

(** A state with one finding, for a link whose check was rejected. *)
Definition one_timeout : State :=
  {| brokenLinks :=
       [ {| page := "/blogs"; link := "/x"; status := StatusTimeout;
            type := KindLink; error := Some "socket hang up" |} ];
     checkedLinks := {[ "/x" ]}; serverRunning := true; trace := [] |}.

(** A state in which the probe has succeeded. *)
Definition server_up : State :=
  {| brokenLinks := []; checkedLinks := ∅; serverRunning := true;
     trace := [probe_request] |}.

(** * Properties *)

(** ** Strings *)

Section StringFacts.

Lemma strip_prefix_app (p r : string) : strip_prefix p (p +:+ r) = Some r.
Proof.
  induction p as [|a p IH]; simpl; [reflexivity|].
  rewrite Ascii.eqb_refl. exact IH.
Qed.

Lemma strip_prefix_Some (p s r : string) :
  strip_prefix p s = Some r -> s = p +:+ r.
Proof.
  revert s. induction p as [|a p IH]; intros s H; simpl in *.
  - injection H as ->. reflexivity.
  - destruct s as [|b s]; [discriminate|].
    destruct (Ascii.eqb a b) eqn:E; [|discriminate].
    apply Ascii.eqb_eq in E. subst b. f_equal. apply IH, H.
Qed.

Lemma startsWith_strip (s p : string) :
  startsWith s p = true <-> exists r, strip_prefix p s = Some r.
Proof.
  revert s. induction p as [|a p IH]; intros s; simpl.
  - split; [intros _; exists s; reflexivity | reflexivity].
  - destruct s as [|b s].
    + split; [discriminate|intros [r H]; discriminate].
    + destruct (Ascii.eqb a b); simpl; [apply IH|].
      split; [discriminate|intros [r H]; discriminate].
Qed.

Lemma startsWith_prefix (s p : string) : startsWith s p = String.prefix p s.
Proof.
  revert p. induction s as [|b s IH]; intros [|a p]; simpl; try reflexivity.
  destruct (ascii_dec a b) as [->|Hne].
  - rewrite Ascii.eqb_refl. apply IH.
  - apply Ascii.eqb_neq in Hne. rewrite Hne. reflexivity.
Qed.

Lemma startsWith_app (p r : string) : startsWith (p +:+ r) p = true.
Proof. apply startsWith_strip. exists r. apply strip_prefix_app. Qed.

Lemma startsWith_inv (s p : string) :
  startsWith s p = true -> exists r, s = p +:+ r.
Proof.
  intros H. apply startsWith_strip in H as [r H].
  exists r. apply strip_prefix_Some, H.
Qed.

(** Replacing a pattern the string starts with rewrites its head. *)
Lemma replace_head (p r rep : string) : replace (p +:+ r) p rep = rep +:+ r.
Proof.
  destruct p as [|a p]; simpl; [destruct r; reflexivity|].
  rewrite Ascii.eqb_refl, strip_prefix_app. reflexivity.
Qed.

Lemma length_append (a b : string) :
  String.length (a +:+ b) = String.length a + String.length b.
Proof. induction a; simpl; congruence. Qed.

End StringFacts.

(** ** normalizeLink *)

Lemma normalizeLink_prefixed (r : string) :
  normalizeLink ("/blog-monakit/" +:+ r) = "/" +:+ r.
Proof.
  unfold normalizeLink. rewrite startsWith_app.
  change ("/blog-monakit/" +:+ r) with ("/blog-monakit" +:+ ("/" +:+ r)).
  rewrite replace_head. reflexivity.
Qed.

Lemma normalizeLink_rooted (l : string) :
  startsWith l "/blog-monakit/" = false ->
  startsWith l "/" = true ->
  normalizeLink l = l.
Proof. intros H1 H2. unfold normalizeLink. rewrite H1, H2. reflexivity. Qed.

Lemma normalizeLink_other (l : string) :
  startsWith l "/" = false -> normalizeLink l = "/" +:+ l.
Proof.
  intros H. unfold normalizeLink.
  destruct (startsWith l "/blog-monakit/") eqn:E; [|rewrite H; reflexivity].
  apply startsWith_inv in E as [r ->]. discriminate H.
Qed.

(** The three branches of [normalizeLink], by the shape of the input. *)
Lemma normalizeLink_cases (l : string) :
  (exists r, l = "/blog-monakit/" +:+ r /\ normalizeLink l = "/" +:+ r) \/
  (startsWith l "/blog-monakit/" = false /\ startsWith l "/" = true /\
   normalizeLink l = l) \/
  (startsWith l "/" = false /\ normalizeLink l = "/" +:+ l).
Proof.
  destruct (startsWith l "/blog-monakit/") eqn:E1.
  - left. apply startsWith_inv in E1 as [r ->]. exists r.
    split; [reflexivity|apply normalizeLink_prefixed].
  - right. destruct (startsWith l "/") eqn:E2.
    + left. repeat split; [apply normalizeLink_rooted; assumption].
    + right. split; [reflexivity|apply normalizeLink_other, E2].
Qed.

Lemma normalizeLink_leading_slash (l : string) :
  startsWith (normalizeLink l) "/" = true.
Proof.
  destruct (normalizeLink_cases l)
    as [(r & _ & ->) | [(_ & H & ->) | (_ & ->)]]; auto.
Qed.

(** Whatever the input (prefixed, bare, relative or empty), the normalized
    link is a ["/"] followed by some text. *)
Lemma normalizeLink_slash_rest (x : string) :
  exists rest, normalizeLink x = String "/" rest.
Proof.
  destruct (normalizeLink_cases x)
    as [(r & _ & ->) | [(_ & H & ->) | (_ & ->)]].
  - exists r. reflexivity.
  - apply startsWith_inv in H as [r ->]. exists r. reflexivity.
  - exists x. reflexivity.
Qed.

(** C10, as stated, fails: a link that starts with two slashes is internal
    and is returned as it is, and a base-path link with a doubled slash
    keeps the second one; the output then begins with two slashes, not
    with a single one. *)
Lemma normalizeLink_two_leading_slashes :
  isInternalLink "//cdn/x" = true /\
  normalizeLink "//cdn/x" = "//cdn/x" /\
  isInternalLink "/blog-monakit//x" = true /\
  normalizeLink "/blog-monakit//x" = "//x" /\
  ~ (startsWith (normalizeLink "//cdn/x") "/" = true /\
     startsWith (normalizeLink "//cdn/x") "//" = false).
Proof.
  repeat split; try reflexivity. intros [_ H]. discriminate H.
Qed.

(** C10, amended: whatever the input (prefixed, bare, relative or empty),
    the normalized link is never empty and begins with ["/"]; it begins
    with exactly one slash unless the input starts with ["//"] or with
    ["/blog-monakit//"], in which case it begins with two. *)
Theorem normalizeLink_leading_slashes :
  forall x : string,
    (exists rest, normalizeLink x = String "/" rest) /\
    normalizeLink x <> "" /\
    startsWith (normalizeLink x) "/" = true /\
    startsWith (normalizeLink x) "//"
    = startsWith x "//" || startsWith x "/blog-monakit//".
Proof.
  intros x. split; [apply normalizeLink_slash_rest|].
  split; [destruct (normalizeLink_slash_rest x) as [rest ->]; discriminate|].
  split; [apply normalizeLink_leading_slash|].
  destruct (normalizeLink_cases x)
    as [(r & -> & ->) | [(Hp & Hs & ->) | (Hs & ->)]].
  - destruct r as [|c r]; reflexivity.
  - assert (startsWith x "/blog-monakit//" = false) as ->.
    { destruct (startsWith x "/blog-monakit//") eqn:E; [|reflexivity].
      apply startsWith_inv in E as [r ->]. discriminate Hp. }
    rewrite orb_false_r. reflexivity.
  - assert (startsWith x "//" = false) as ->.
    { destruct (startsWith x "//") eqn:E; [|reflexivity].
      apply startsWith_inv in E as [r ->]. discriminate Hs. }
    assert (startsWith x "/blog-monakit//" = false) as ->.
    { destruct (startsWith x "/blog-monakit//") eqn:E; [|reflexivity].
      apply startsWith_inv in E as [r ->]. discriminate Hs. }
    destruct x as [|c x]; [reflexivity|].
    simpl in Hs. rewrite andb_true_r in Hs. simpl.
    rewrite Hs. reflexivity.
Qed.

Example normalize_prefixed : normalizeLink "/blog-monakit/blogs" = "/blogs".
Proof. reflexivity. Qed.

Example normalize_bare : normalizeLink "/blogs" = "/blogs".
Proof. reflexivity. Qed.

Example normalize_relative : normalizeLink "../blogs" = "/../blogs".
Proof. reflexivity. Qed.

(** A link that starts with two slashes is returned as it is. *)
Example normalize_double_slash : normalizeLink "//cdn/x" = "//cdn/x".
Proof. reflexivity. Qed.

(** A second pass strips a second copy of the base path. *)
Example normalizeLink_twice :
  normalizeLink "/blog-monakit/blog-monakit/a" = "/blog-monakit/a" /\
  normalizeLink "/blog-monakit/a" = "/a".
Proof. split; reflexivity. Qed.

(** C3, as stated, fails: the normal form of
    ["/blog-monakit/blog-monakit/a"] still starts with the base path, and
    normalizing it again changes it. *)
Lemma normalizeLink_not_idempotent :
  ~ (forall x : string, normalizeLink (normalizeLink x) = normalizeLink x).
Proof.
  intros H. specialize (H "/blog-monakit/blog-monakit/a"). discriminate H.
Qed.

(** C3, amended: a second normalization is a no-op exactly when the
    normalized link does not start with ["/blog-monakit/"] any more; then
    (and only then) the normalizer returns an already-normalized link
    unchanged. *)
Theorem normalizeLink_idempotent_iff :
  forall x : string,
    normalizeLink (normalizeLink x) = normalizeLink x <->
    startsWith (normalizeLink x) "/blog-monakit/" = false.
Proof.
  intros x. generalize (normalizeLink_leading_slash x).
  generalize (normalizeLink x) as y. intros y Hy. split.
  - intros Hfix. destruct (startsWith y "/blog-monakit/") eqn:E; [|reflexivity].
    apply startsWith_inv in E as [r ->].
    rewrite normalizeLink_prefixed in Hfix.
    apply (f_equal String.length) in Hfix. simpl in Hfix. lia.
  - intros E. apply normalizeLink_rooted; assumption.
Qed.

(** C9, as stated, fails when the suffix itself starts with
    ["blog-monakit/"]. *)
Lemma normalizeLink_prefix_mismatch :
  normalizeLink ("/blog-monakit" +:+ "/" +:+ "blog-monakit/a")
  <> normalizeLink ("/" +:+ "blog-monakit/a").
Proof. discriminate. Qed.

(** C9, amended: the prefixed form ["/blog-monakit/" +:+ x] and the bare form
    ["/" +:+ x] have the same normal form exactly when [x] does not start
    with ["blog-monakit/"]; the common normal form is then ["/" +:+ x]. *)
Theorem normalizeLink_prefixed_vs_bare :
  forall x : string,
    (normalizeLink ("/blog-monakit" +:+ "/" +:+ x) = normalizeLink ("/" +:+ x)
     <-> startsWith x "blog-monakit/" = false) /\
    normalizeLink ("/blog-monakit" +:+ "/" +:+ x) = "/" +:+ x.
Proof.
  intros x.
  assert (Hl : normalizeLink ("/blog-monakit" +:+ "/" +:+ x) = "/" +:+ x)
    by apply (normalizeLink_prefixed x).
  split; [|exact Hl]. rewrite Hl. split.
  - intros Heq. destruct (startsWith x "blog-monakit/") eqn:E; [|reflexivity].
    apply startsWith_inv in E as [r ->].
    change ("/" +:+ "blog-monakit/" +:+ r) with ("/blog-monakit/" +:+ r) in Heq.
    rewrite normalizeLink_prefixed in Heq.
    apply (f_equal String.length) in Heq. simpl in Heq. lia.
  - intros E. symmetry. apply normalizeLink_rooted; [|reflexivity].
    exact E.
Qed.

(** ** The regular expression *)

Module RegexFacts.
Import Regex.

Lemma span_value_spec (s v rest : string) :
  span_value s = (v, rest) ->
  s = v +:+ rest /\ quote_free v = true /\
  (rest = "" \/ exists q r, rest = String q r /\ is_quote q = true).
Proof.
  revert v rest. induction s as [|c s IH]; intros v rest H; simpl in H.
  - injection H as <- <-. auto.
  - destruct (is_quote c) eqn:Q.
    + injection H as <- <-.
      split; [reflexivity|]. split; [reflexivity|].
      right. exists c, s. auto.
    + destruct (span_value s) as [v' rest'] eqn:E.
      injection H as <- <-.
      destruct (IH v' rest' eq_refl) as (-> & Hv & Hr).
      simpl. rewrite Q. auto.
Qed.

Lemma span_value_complete (v rest : string) :
  quote_free v = true ->
  (rest = "" \/ exists q r, rest = String q r /\ is_quote q = true) ->
  span_value (v +:+ rest) = (v, rest).
Proof.
  intros Hv Hr. induction v as [|c v IH]; simpl in *.
  - destruct Hr as [->|(q & r & -> & Hq)]; simpl; [|rewrite Hq]; reflexivity.
  - apply andb_prop in Hv as [Hc Hv]. apply negb_true_iff in Hc.
    rewrite Hc, (IH Hv). reflexivity.
Qed.

(** [match_here] is a match of the pattern at the head of [s]: [href=],
    a quote, the non-empty quote-free value [v], a quote, then [rest]. *)
Lemma match_here_spec (s v rest : string) :
  match_here s = Some (v, rest) <->
  exists q1 q2,
    is_quote q1 = true /\ is_quote q2 = true /\
    v <> "" /\ quote_free v = true /\
    s = "href=" +:+ String q1 (v +:+ String q2 rest).
Proof.
  unfold match_here. split.
  - destruct (strip_prefix "href=" s) as [[|q1 s1]|] eqn:E; try discriminate.
    apply strip_prefix_Some in E. subst s.
    destruct (is_quote q1) eqn:Q1; [|discriminate].
    destruct (span_value s1) as [[|c v'] [|q2 rest']] eqn:Sp; try discriminate.
    intros H. injection H as <- <-.
    apply span_value_spec in Sp as (-> & Hv & Hr).
    destruct Hr as [Hr|(q & r & Hr & Hq)]; [discriminate|].
    injection Hr as -> ->.
    exists q1, q. repeat split; auto.
  - intros (q1 & q2 & Q1 & Q2 & Hne & Hv & ->).
    rewrite strip_prefix_app, Q1, span_value_complete; eauto.
    destruct v; [contradiction|reflexivity].
Qed.

Lemma match_here_shorter (s v rest : string) :
  match_here s = Some (v, rest) -> String.length rest < String.length s.
Proof.
  intros H. apply match_here_spec in H as (q1 & q2 & _ & _ & _ & _ & ->).
  simpl. rewrite length_append. simpl. lia.
Qed.

Lemma exec_shorter (s v rest : string) :
  exec s = Some (v, rest) -> String.length rest < String.length s.
Proof.
  induction s as [|c s IH].
  - discriminate.
  - change (exec (String c s))
      with (match match_here (String c s) with
            | Some m => Some m
            | None => exec s
            end).
    destruct (match_here (String c s)) as [m|] eqn:E.
    + intros H. injection H as ->. apply match_here_shorter in E. exact E.
    + intros H. apply IH in H. simpl. lia.
Qed.

Lemma exec_empty : exec "" = None.
Proof. reflexivity. Qed.

Lemma exec_cons (c : ascii) (s : string) :
  exec (String c s)
  = match match_here (String c s) with Some m => Some m | None => exec s end.
Proof. reflexivity. Qed.

(** [exec] returns the leftmost match: the pattern matches where it says,
    and at no earlier position. *)
Lemma exec_leftmost (s : string) (m : string * string) :
  exec s = Some m ->
  exists pre tail,
    s = pre +:+ tail /\ match_here tail = Some m /\
    forall pre1 c pre2, pre = pre1 +:+ String c pre2 ->
                        match_here (String c pre2 +:+ tail) = None.
Proof.
  induction s as [|c s IH]; [discriminate|].
  rewrite exec_cons. destruct (match_here (String c s)) as [m'|] eqn:E.
  - intros H. injection H as ->. exists "", (String c s).
    repeat split; [exact E|]. intros [|? ?] ? ? H; discriminate H.
  - intros H. destruct (IH H) as (pre & tail & -> & Hm & Hleft).
    exists (String c pre), tail. repeat split; [exact Hm|].
    intros [|c1 pre1] c2 pre2 Hpre; simpl in Hpre; injection Hpre as -> ->.
    + exact E.
    + apply Hleft with (pre1 := pre1). reflexivity.
Qed.

(** [exec] returns [None] only when the pattern matches nowhere. *)
Lemma exec_none (s : string) :
  exec s = None -> forall pre tail, s = pre +:+ tail -> match_here tail = None.
Proof.
  induction s as [|c s IH].
  - intros _ [|? ?] tail H; [|discriminate H]. simpl in H. subst tail.
    reflexivity.
  - rewrite exec_cons. destruct (match_here (String c s)) eqn:E; [discriminate|].
    intros H [|c' pre] tail Hs; simpl in Hs.
    + subst tail. exact E.
    + injection Hs as -> ->. apply (IH H pre). reflexivity.
Qed.

End RegexFacts.

(** ** extractLinks *)

Section ExtractFacts.

(** The loop stops by itself: any fuel from the length of the text on
    gives the same links. *)
Lemma scan_fuel (f1 f2 : nat) (s : string) (links : list string) :
  String.length s <= f1 -> String.length s <= f2 ->
  scan f1 s links = scan f2 s links.
Proof.
  revert f2 s links. induction f1 as [|f1 IH]; intros f2 s links H1 H2.
  - destruct s; [|simpl in H1; lia].
    destruct f2; reflexivity.
  - destruct f2 as [|f2].
    + destruct s; [reflexivity|simpl in H2; lia].
    + simpl. destruct (Regex.exec s) as [[v rest]|] eqn:E; [|reflexivity].
      apply RegexFacts.exec_shorter in E. apply IH; lia.
Qed.

Lemma matchAll_fuel (f1 f2 : nat) (s : string) :
  String.length s <= f1 -> String.length s <= f2 ->
  matchAll f1 s = matchAll f2 s.
Proof.
  revert f2 s. induction f1 as [|f1 IH]; intros f2 s H1 H2.
  - destruct s; [|simpl in H1; lia].
    destruct f2; reflexivity.
  - destruct f2 as [|f2].
    + destruct s; [reflexivity|simpl in H2; lia].
    + simpl. destruct (Regex.exec s) as [[v rest]|] eqn:E; [|reflexivity].
      apply RegexFacts.exec_shorter in E. f_equal. apply IH; lia.
Qed.

Lemma scan_matchAll (f : nat) (s : string) (links : list string) :
  scan f s links = links ++ filter (fun l => isInternalLink l) (matchAll f s).
Proof.
  revert s links. induction f as [|f IH]; intros s links; simpl.
  - rewrite app_nil_r. reflexivity.
  - destruct (Regex.exec s) as [[v rest]|]; [|rewrite app_nil_r; reflexivity].
    rewrite IH, filter_cons.
    destruct (isInternalLink v); simpl.
    + rewrite <- app_assoc. reflexivity.
    + reflexivity.
Qed.

Lemma Set_add_NoDup (acc : list string) (x : string) :
  NoDup acc -> NoDup (Set_add acc x).
Proof.
  intros H. unfold Set_add. case_bool_decide as Hx; [exact H|].
  apply NoDup_app. repeat split; [exact H| |apply NoDup_singleton].
  intros y Hy Hy'. apply list_elem_of_singleton in Hy'. subst y. auto.
Qed.

Lemma Set_add_elem (acc : list string) (x y : string) :
  y ∈ Set_add acc x <-> y ∈ acc \/ y = x.
Proof.
  unfold Set_add. case_bool_decide as Hx.
  - split; [auto|]. intros [H| ->]; assumption.
  - rewrite elem_of_app, list_elem_of_singleton. reflexivity.
Qed.

Lemma Set_fold_NoDup (l acc : list string) :
  NoDup acc -> NoDup (fold_left Set_add l acc).
Proof.
  revert acc. induction l as [|x l IH]; intros acc H; simpl; [exact H|].
  apply IH, Set_add_NoDup, H.
Qed.

Lemma Set_fold_elem (l acc : list string) (y : string) :
  y ∈ fold_left Set_add l acc <-> y ∈ acc \/ y ∈ l.
Proof.
  revert acc. induction l as [|x l IH]; intros acc; simpl.
  - rewrite elem_of_nil. tauto.
  - rewrite IH, Set_add_elem, elem_of_cons. tauto.
Qed.

Lemma Set_spread_NoDup (l : list string) : NoDup (Set_spread l).
Proof. apply Set_fold_NoDup, NoDup_nil_2. Qed.

Lemma Set_spread_elem (l : list string) (y : string) :
  y ∈ Set_spread l <-> y ∈ l.
Proof. unfold Set_spread. rewrite Set_fold_elem, elem_of_nil. tauto. Qed.

Lemma extractLinks_hrefValues (html : string) :
  extractLinks html
  = Set_spread (filter (fun l => isInternalLink l) (hrefValues html)).
Proof. unfold extractLinks, hrefValues. rewrite scan_matchAll. reflexivity. Qed.

(** More iterations than [String.length html] change nothing. *)
Lemma extractLinks_fuel (f : nat) (html : string) :
  String.length html <= f -> Set_spread (scan f html []) = extractLinks html.
Proof. intros H. unfold extractLinks. f_equal. apply scan_fuel; lia. Qed.

Lemma extractLinks_elem (html l : string) :
  l ∈ extractLinks html <-> l ∈ hrefValues html /\ isInternalLink l = true.
Proof.
  rewrite extractLinks_hrefValues, Set_spread_elem, list_elem_of_filter.
  rewrite Is_true_true. tauto.
Qed.

Lemma extractLinks_NoDup (html : string) : NoDup (extractLinks html).
Proof. rewrite extractLinks_hrefValues. apply Set_spread_NoDup. Qed.

End ExtractFacts.

Example extract_example :
  extractLinks
    "<a href='/blogs'>x</a><a href='https://example.com'>y</a><a href='/blogs'>z</a><link href='./a.css'>"
  = ["/blogs"; "./a.css"].
Proof. vm_compute. reflexivity. Qed.

(** C8: when the internal href values matched in [html] are the [N]
    pairwise distinct strings [vals], the extractor returns exactly [N]
    links, without repetition, and they are the strings of [vals] — however
    many times each of them occurs in the page. *)
Theorem extractLinks_unique_candidates :
  forall (html : string) (vals : list string) (N : nat),
    NoDup vals ->
    length vals = N ->
    (forall l, l ∈ vals <-> l ∈ hrefValues html /\ isInternalLink l = true) ->
    length (extractLinks html) = N /\
    NoDup (extractLinks html) /\
    (forall l, l ∈ extractLinks html <-> l ∈ vals) /\
    (forall l, l ∈ vals ->
               length (filter (fun y => y = l) (extractLinks html)) = 1).
Proof.
  intros html vals N Hnd HN Hvals.
  assert (Helem : forall l, l ∈ extractLinks html <-> l ∈ vals).
  { intros l. rewrite extractLinks_elem, Hvals. reflexivity. }
  assert (Hperm : extractLinks html ≡ₚ vals).
  { apply NoDup_Permutation; auto using extractLinks_NoDup. }
  repeat split.
  - rewrite Hperm. exact HN.
  - apply extractLinks_NoDup.
  - apply Helem.
  - apply Helem.
  - intros l Hl. apply Helem in Hl.
    generalize (extractLinks_NoDup html) Hl.
    generalize (extractLinks html) as ls. clear.
    induction ls as [|x ls IH]; intros Hnd Hl.
    + apply elem_of_nil in Hl. contradiction.
    + apply NoDup_cons in Hnd as [Hx Hnd]. rewrite filter_cons.
      apply elem_of_cons in Hl as [->|Hl].
      * rewrite decide_True by reflexivity. simpl. f_equal.
        clear IH Hnd. induction ls as [|z ls IH]; [reflexivity|].
        rewrite filter_cons. apply not_elem_of_cons in Hx as [Hne Hx].
        rewrite decide_False by congruence. apply IH, Hx.
      * rewrite decide_False; [apply IH; assumption|].
        intros ->. contradiction.
Qed.

Example hrefValues_page_with_duplicates :
  hrefValues page_with_duplicates
  = ["/blogs"; "/blog-monakit/x"; "/blogs"; "mailto:me@example.com"].
Proof. vm_compute. reflexivity. Qed.

Lemma extractLinks_unique_candidates_witness :
  let vals := ["/blogs"; "/blog-monakit/x"] in
  (NoDup vals /\
   (forall l, l ∈ vals <->
              l ∈ hrefValues page_with_duplicates /\ isInternalLink l = true)) /\
  length (extractLinks page_with_duplicates) = 2 /\
  NoDup (extractLinks page_with_duplicates) /\
  (forall l, l ∈ extractLinks page_with_duplicates <-> l ∈ vals) /\
  (forall l, l ∈ vals ->
             length (filter (fun y => y = l)
                            (extractLinks page_with_duplicates)) = 1).
Proof.
  intros vals.
  assert (Hnd : NoDup vals).
  { apply NoDup_cons. split; [|apply NoDup_singleton].
    rewrite list_elem_of_singleton. discriminate. }
  assert (Hvals : forall l, l ∈ vals <->
            l ∈ hrefValues page_with_duplicates /\ isInternalLink l = true).
  { intros l. rewrite hrefValues_page_with_duplicates. unfold vals.
    rewrite !elem_of_cons, !elem_of_nil. split.
    - intros [->|[->|[]]]; split; auto.
    - intros [[->|[->|[->|[->|[]]]]] Hi]; auto; discriminate Hi. }
  split; [split; assumption|].
  exact (extractLinks_unique_candidates page_with_duplicates vals 2
           Hnd eq_refl Hvals).
Defined.

Section NetFacts.

Variable net : nat -> Method -> string -> Outcome.

Lemma State_eta (st : State) :
  st = {| brokenLinks := brokenLinks st; checkedLinks := checkedLinks st;
          serverRunning := serverRunning st; trace := trace st |}.
Proof. destruct st; reflexivity. Qed.

(** *** checkLink *)

Lemma checkLink_seen (p l : string) (st : State) :
  l ∈ checkedLinks st -> checkLink net p l st = st.
Proof. intros H. unfold checkLink. rewrite bool_decide_eq_true_2; auto. Qed.

Lemma checkLink_fresh (p l : string) (st : State) :
  l ∉ checkedLinks st ->
  checkLink net p l st =
  {| brokenLinks :=
       brokenLinks st ++
       link_findings p l
         (net (length (trace st)) HEAD (BASE_URL +:+ normalizeLink l));
     checkedLinks := {[ l ]} ∪ checkedLinks st;
     serverRunning := serverRunning st;
     trace := trace st ++
              [mkRequest (LinkCheck p l) HEAD (BASE_URL +:+ normalizeLink l)] |}.
Proof.
  intros H. unfold checkLink. rewrite bool_decide_eq_false_2 by exact H.
  unfold fetch, link_findings, push, add_checked. simpl.
  destruct (net _ _ _) as [message|code text]; simpl; [reflexivity|].
  destruct (ok code); simpl; [rewrite app_nil_r|]; reflexivity.
Qed.

(** The part of the state that [checkLink] never touches or only grows. *)
Lemma checkLink_frame (p l : string) (st : State) :
  serverRunning (checkLink net p l st) = serverRunning st /\
  checkedLinks st ⊆ checkedLinks (checkLink net p l st) /\
  l ∈ checkedLinks (checkLink net p l st) /\
  exists ext,
    trace (checkLink net p l st) = trace st ++ ext /\
    Forall (fun r => r = mkRequest (LinkCheck p l) HEAD
                                (BASE_URL +:+ normalizeLink l)) ext /\
    (l ∈ checkedLinks st -> ext = []) /\
    (l ∉ checkedLinks st -> length ext = 1).
Proof.
  destruct (decide (l ∈ checkedLinks st)) as [Hin|Hout].
  - rewrite checkLink_seen by exact Hin.
    repeat split; auto. exists []. rewrite app_nil_r.
    repeat split; auto. contradiction.
  - rewrite checkLink_fresh by exact Hout. simpl.
    repeat split; [set_solver|set_solver|].
    eexists. repeat split; auto. contradiction.
Qed.

Lemma dedup_inv_init : dedup_inv constructor.
Proof. split; [apply NoDup_nil_2|]. intros l H. apply elem_of_nil in H as []. Qed.

Lemma checkLink_dedup_inv (p l : string) (st : State) :
  dedup_inv st -> dedup_inv (checkLink net p l st).
Proof.
  intros [Hnd Hsub].
  destruct (decide (l ∈ checkedLinks st)) as [Hin|Hout].
  - rewrite checkLink_seen by exact Hin. split; assumption.
  - rewrite checkLink_fresh by exact Hout. unfold dedup_inv, checkedRaw. simpl.
    rewrite omap_app. simpl. split.
    + apply NoDup_app. repeat split; [exact Hnd| |apply NoDup_singleton].
      intros x Hx Hx'. apply list_elem_of_singleton in Hx'. subst x.
      apply Hout, Hsub, Hx.
    + intros x Hx. apply elem_of_app in Hx as [Hx|Hx].
      * apply Hsub in Hx. set_solver.
      * apply list_elem_of_singleton in Hx. set_solver.
Qed.

Lemma checkLink_well_formed (p l : string) (st : State) :
  isInternalLink l = true ->
  Forall well_formed (trace st) ->
  Forall well_formed (trace (checkLink net p l st)).
Proof.
  intros Hi Hwf.
  destruct (checkLink_frame p l st) as (_ & _ & _ & ext & -> & Hext & _).
  apply Forall_app. split; [exact Hwf|].
  eapply Forall_impl; [exact Hext|]. intros r ->. repeat split. exact Hi.
Qed.

Lemma checkLink_fetchedPages (p l : string) (st : State) :
  fetchedPages (trace (checkLink net p l st)) = fetchedPages (trace st).
Proof.
  destruct (checkLink_frame p l st) as (_ & _ & _ & ext & -> & Hext & _).
  unfold fetchedPages. rewrite omap_app.
  assert (omap page_of ext = []) as ->; [|apply app_nil_r].
  induction Hext as [|r ext -> _ IH]; [reflexivity|exact IH].
Qed.

(** *** checkLinks: the loop over the links of a page *)

Lemma checkLinks_cons (p l : string) (ls : list string) (st : State) :
  checkLinks net p (l :: ls) st = checkLinks net p ls (checkLink net p l st).
Proof. reflexivity. Qed.

Lemma checkLinks_frame (p : string) (ls : list string) (st : State) :
  serverRunning (checkLinks net p ls st) = serverRunning st /\
  fetchedPages (trace (checkLinks net p ls st)) = fetchedPages (trace st).
Proof.
  revert st. induction ls as [|l ls IH]; intros st; [split; reflexivity|].
  rewrite checkLinks_cons.
  destruct (IH (checkLink net p l st)) as [-> ->].
  split; [apply checkLink_frame|apply checkLink_fetchedPages].
Qed.

Lemma checkLinks_inv (p : string) (ls : list string) (st : State) :
  Forall (fun l => isInternalLink l = true) ls ->
  dedup_inv st -> Forall well_formed (trace st) ->
  dedup_inv (checkLinks net p ls st) /\
  Forall well_formed (trace (checkLinks net p ls st)).
Proof.
  intros Hls. revert st.
  induction Hls as [|l ls Hl _ IH]; intros st Hd Hwf; [split; assumption|].
  rewrite checkLinks_cons. apply IH.
  - apply checkLink_dedup_inv, Hd.
  - apply checkLink_well_formed; assumption.
Qed.

(** *** checkPageLinks *)

Lemma checkPageLinks_down (page : string) (st : State) :
  serverRunning st = false -> checkPageLinks net page st = st.
Proof. intros H. unfold checkPageLinks. rewrite H. reflexivity. Qed.

Lemma checkPageLinks_up (page : string) (st : State) :
  serverRunning st = true ->
  checkPageLinks net page st =
  match net (length (trace st)) GET (BASE_URL +:+ page) with
  | Response code text =>
      if ok code then
        match text with
        | Some html => checkLinks net page (extractLinks html) (fetched net page st)
        | None => fetched net page st
        end
      else push (page_finding page code) (fetched net page st)
  | Throw _ => fetched net page st
  end.
Proof.
  intros H. unfold checkPageLinks, fetched, fetch. rewrite H. simpl.
  destruct (net _ _ _) as [message|code text]; [reflexivity|].
  destruct (ok code); reflexivity.
Qed.

Lemma extractLinks_internal (html : string) :
  Forall (fun l => isInternalLink l = true) (extractLinks html).
Proof. apply Forall_forall. intros l H. apply extractLinks_elem in H. tauto. Qed.

Lemma checkPageLinks_frame (page : string) (st : State) :
  serverRunning st = true ->
  serverRunning (checkPageLinks net page st) = true /\
  fetchedPages (trace (checkPageLinks net page st))
  = fetchedPages (trace st) ++ [page].
Proof.
  intros Hup. rewrite checkPageLinks_up by exact Hup.
  assert (Hf : serverRunning (fetched net page st) = true /\
               fetchedPages (trace (fetched net page st))
               = fetchedPages (trace st) ++ [page]).
  { unfold fetched, fetch, fetchedPages. simpl. rewrite omap_app. auto. }
  destruct (net _ _ _) as [message|code [html|]]; try exact Hf.
  - destruct (ok code); [|exact Hf].
    destruct (checkLinks_frame page (extractLinks html) (fetched net page st))
      as [-> ->]. exact Hf.
  - destruct (ok code); exact Hf.
Qed.

Lemma checkPageLinks_inv (page : string) (st : State) :
  dedup_inv st -> Forall well_formed (trace st) ->
  dedup_inv (checkPageLinks net page st) /\
  Forall well_formed (trace (checkPageLinks net page st)).
Proof.
  intros Hd Hwf. destruct (serverRunning st) eqn:Hup.
  2: { rewrite checkPageLinks_down by exact Hup. split; assumption. }
  rewrite checkPageLinks_up by exact Hup.
  assert (Hf : dedup_inv (fetched net page st) /\
               Forall well_formed (trace (fetched net page st))).
  { destruct Hd as [Hnd Hsub]. unfold dedup_inv, fetched, fetch, checkedRaw.
    simpl. rewrite omap_app. simpl. rewrite app_nil_r.
    repeat split; try assumption.
    apply Forall_app. split; [exact Hwf|].
    apply Forall_singleton. split; reflexivity. }
  destruct (net _ _ _) as [message|code [html|]]; try exact Hf.
  - destruct (ok code); [|exact Hf].
    apply checkLinks_inv; [apply extractLinks_internal|apply Hf..].
  - destruct (ok code); exact Hf.
Qed.

(** *** checkPages: the loop over the seed pages *)

Lemma checkPages_cons (page : string) (pages : list string) (st : State) :
  checkPages net (page :: pages) st
  = checkPages net pages (checkPageLinks net page st).
Proof. reflexivity. Qed.

Lemma checkPages_down (pages : list string) (st : State) :
  serverRunning st = false -> checkPages net pages st = st.
Proof.
  intros H. induction pages as [|page pages IH]; [reflexivity|].
  rewrite checkPages_cons, checkPageLinks_down by exact H. exact IH.
Qed.

Lemma checkPages_frame (pages : list string) (st : State) :
  serverRunning st = true ->
  serverRunning (checkPages net pages st) = true /\
  fetchedPages (trace (checkPages net pages st))
  = fetchedPages (trace st) ++ pages.
Proof.
  revert st. induction pages as [|page pages IH]; intros st Hup.
  - simpl. rewrite app_nil_r. auto.
  - rewrite checkPages_cons.
    destruct (checkPageLinks_frame page st Hup) as [Hup' Hf].
    destruct (IH _ Hup') as [-> ->]. rewrite Hf, <- app_assoc. auto.
Qed.

Lemma checkPages_inv (pages : list string) (st : State) :
  dedup_inv st -> Forall well_formed (trace st) ->
  dedup_inv (checkPages net pages st) /\
  Forall well_formed (trace (checkPages net pages st)).
Proof.
  revert st. induction pages as [|page pages IH]; intros st Hd Hwf.
  - split; assumption.
  - rewrite checkPages_cons.
    destruct (checkPageLinks_inv page st Hd Hwf). apply IH; assumption.
Qed.

(** *** checkServerStatus *)

Lemma checkServerStatus_constructor :
  checkServerStatus net constructor =
  {| brokenLinks := []; checkedLinks := ∅;
     serverRunning := probe_ok net; trace := [probe_request] |}.
Proof.
  unfold checkServerStatus, probe_ok, fetch. simpl.
  destruct (net _ _ _) as [message|code text]; [reflexivity|].
  destruct (ok code); reflexivity.
Qed.

End NetFacts.

Section RunFacts.

Variable net : nat -> Method -> string -> Outcome.
Variable cwd : string.
Variable path_join : string -> string -> string.
Variable existsSync : string -> bool.

(** *** checkStaticFiles *)

Lemma checkStaticFile_fold (files : list string) (st : State) :
  fold_left (checkStaticFile cwd path_join existsSync) files st =
  {| brokenLinks := brokenLinks st ++ map missing_file (filter (is_missing cwd path_join existsSync) files);
     checkedLinks := checkedLinks st;
     serverRunning := serverRunning st;
     trace := trace st |}.
Proof.
  revert st. induction files as [|f files IH]; intros st; simpl.
  - rewrite app_nil_r. apply State_eta.
  - rewrite IH, filter_cons.
    destruct (decide (is_missing cwd path_join existsSync f)) as [E|E];
      unfold checkStaticFile; unfold is_missing in E.
    + rewrite E. simpl. rewrite <- app_assoc. reflexivity.
    + apply not_false_is_true in E. rewrite E. reflexivity.
Qed.

Lemma checkStaticFiles_spec (st : State) :
  checkStaticFiles cwd path_join existsSync st =
  {| brokenLinks :=
       brokenLinks st ++ map missing_file (filter (is_missing cwd path_join existsSync) staticFiles);
     checkedLinks := checkedLinks st;
     serverRunning := serverRunning st;
     trace := trace st |}.
Proof. apply checkStaticFile_fold. Qed.

(** *** run *)

Lemma run_trace :
  trace (run net cwd path_join existsSync)
  = trace (checkPages net PAGES_TO_CHECK (checkServerStatus net constructor)).
Proof. unfold run. rewrite checkStaticFiles_spec. reflexivity. Qed.

Lemma run_inv :
  NoDup (checkedRaw (trace (run net cwd path_join existsSync))) /\
  Forall well_formed (trace (run net cwd path_join existsSync)).
Proof.
  rewrite run_trace, checkServerStatus_constructor.
  edestruct checkPages_inv as [[Hnd _] Hwf]; [| |split; [exact Hnd|exact Hwf]].
  - split; simpl; [apply NoDup_nil_2|].
    intros l H. apply elem_of_nil in H as [].
  - simpl. apply Forall_singleton. split; reflexivity.
Qed.

End RunFacts.

(** ** Link verification (C1, C4, C6) *)

Lemma append_inj (a b c : string) : a +:+ b = a +:+ c -> b = c.
Proof. induction a as [|x a IH]; simpl; intros H; [exact H|]. injection H. exact IH. Qed.

Lemma existenceChecks_checkedRaw (n : string) (tr : list Request) :
  Forall well_formed tr ->
  existenceChecks n tr
  = length (filter (fun raw => normalizeLink raw = n) (checkedRaw tr)).
Proof.
  unfold existenceChecks, checkedRaw.
  induction 1 as [|r tr Hr _ IH]; [reflexivity|].
  rewrite filter_cons. cbn [omap list_omap].
  unfold well_formed, link_of in *.
  destruct (call r) as [|p|p l].
  - destruct Hr as [Hm _]. rewrite decide_False; [exact IH|].
    intros [Hm' _]. congruence.
  - destruct Hr as [Hm _]. rewrite decide_False; [exact IH|].
    intros [Hm' _]. congruence.
  - destruct Hr as (Hm & Hu & _). rewrite filter_cons.
    destruct (decide (normalizeLink l = n)) as [E|E].
    + rewrite decide_True by (split; [exact Hm|rewrite Hu, E; reflexivity]).
      cbn [length]. f_equal. exact IH.
    + rewrite decide_False; [exact IH|].
      intros [_ Hu']. rewrite Hu in Hu'. apply append_inj in Hu'. contradiction.
Qed.

Lemma checkedRaw_internal (l : string) (tr : list Request) :
  Forall well_formed tr -> l ∈ checkedRaw tr -> isInternalLink l = true.
Proof.
  intros Hwf Hl. unfold checkedRaw in Hl.
  apply list_elem_of_omap in Hl as (r & Hr & Hlink).
  rewrite Forall_forall in Hwf. specialize (Hwf r Hr).
  unfold well_formed, link_of in *.
  destruct (call r); try discriminate. injection Hlink as ->. tauto.
Qed.

Lemma NoDup_count_le_1 (x : string) (l : list string) :
  NoDup l -> length (filter (fun y => y = x) l) <= 1.
Proof.
  induction 1 as [|y l Hy _ IH]; [simpl; lia|].
  rewrite filter_cons. destruct (decide (y = x)) as [->|Hne]; [|exact IH].
  simpl. assert (filter (fun y => y = x) l = []) as ->; [|simpl; lia].
  clear IH. induction l as [|z l IH]; [reflexivity|].
  apply not_elem_of_cons in Hy as [Hz Hy].
  rewrite filter_cons, decide_False by congruence. apply IH, Hy.
Qed.

(** C1, as stated, fails: the home page refers to [/x] with the base path,
    the blog index without; the two raw texts are different members of
    [checkedLinks], and [/x] is checked twice. *)
Lemma one_check_per_normalized_link_fails :
  let tr := trace (run net_two_forms "/repo" join_slash (fun _ => true)) in
  checkedRaw tr = ["/blog-monakit/x"; "/x"] /\
  ~ (existenceChecks "/x" tr <= 1).
Proof.
  vm_compute. split; [reflexivity|]. intros H. inversion H as [|? H1]. inversion H1.
Qed.

(** C1, amended: in every run an existence check is issued at most once
    for each raw link text, however many seed pages refer to it (the
    dedupe is global, and its key is the text as found in the page, before
    normalization); the number of checks of a normalized link is the number
    of distinct raw texts checked that normalize to it. *)
Theorem one_check_per_raw_link :
  forall (net : nat -> Method -> string -> Outcome) (cwd : string)
         (path_join : string -> string -> string) (existsSync : string -> bool),
    let tr := trace (run net cwd path_join existsSync) in
    NoDup (checkedRaw tr) /\
    (forall raw, length (filter (fun l => l = raw) (checkedRaw tr)) <= 1) /\
    (forall n, existenceChecks n tr
               = length (filter (fun raw => normalizeLink raw = n)
                                (checkedRaw tr))).
Proof.
  intros net cwd path_join existsSync tr.
  destruct (run_inv net cwd path_join existsSync) as [Hnd Hwf].
  split; [exact Hnd|]. split.
  - intros raw. apply NoDup_count_le_1, Hnd.
  - intros n. apply existenceChecks_checkedRaw, Hwf.
Qed.

(** C4, as stated, fails: a fragment-only or query-only href is not
    internal for [isInternalLink], and [extractLinks] drops it. *)
Lemma fragment_and_query_not_internal :
  isInternalLink "#section" = false /\
  isInternalLink "?x=1" = false /\
  extractLinks "<a href='#section'>s</a> <a href='?x=1'>q</a>" = [].
Proof. repeat split; vm_compute; reflexivity. Qed.

(** C4, amended: a link that starts with [#] or with [?] is classified as
    not internal, is never returned by the extractor and is never sent to
    the verifier in any run. *)
Theorem fragment_or_query_excluded :
  forall l : string,
    startsWith l "#" = true \/ startsWith l "?" = true ->
    isInternalLink l = false /\
    (forall html, l ∉ extractLinks html) /\
    (forall net cwd path_join existsSync,
        l ∉ checkedRaw (trace (run net cwd path_join existsSync))).
Proof.
  intros l H.
  assert (Hi : isInternalLink l = false).
  { destruct H as [H|H]; apply startsWith_inv in H as [r ->]; reflexivity. }
  split; [exact Hi|]. split.
  - intros html Hl. apply extractLinks_elem in Hl as [_ Hl]. congruence.
  - intros net cwd path_join existsSync Hl.
    apply checkedRaw_internal in Hl; [congruence|]. apply run_inv.
Qed.

Lemma fragment_or_query_excluded_witness :
  (startsWith "#section" "#" = true \/ startsWith "#section" "?" = true) /\
  isInternalLink "#section" = false /\
  (forall html, "#section" ∉ extractLinks html) /\
  (forall net cwd path_join existsSync,
      "#section" ∉ checkedRaw (trace (run net cwd path_join existsSync))).
Proof.
  split; [left; reflexivity|].
  apply (fragment_or_query_excluded "#section"). left. reflexivity.
Defined.

(** C6: a link that is not in [checkedLinks] yet is checked with one HEAD
    request to its normalized form; a successful answer leaves
    [brokenLinks] as it is, any other answer appends one finding of kind
    link with the status code, and a rejected request appends one finding
    of kind link with status TIMEOUT and the error message. *)
Theorem checkLink_outcomes :
  forall (net : nat -> Method -> string -> Outcome)
         (sourcePage raw : string) (st : State),
    raw ∉ checkedLinks st ->
    let n := normalizeLink raw in
    let st' := checkLink net sourcePage raw st in
    trace st' = trace st ++ [mkRequest (LinkCheck sourcePage raw) HEAD
                                       (BASE_URL +:+ n)] /\
    match net (length (trace st)) HEAD (BASE_URL +:+ n) with
    | Response code _ =>
        if ok code then brokenLinks st' = brokenLinks st
        else brokenLinks st' =
             brokenLinks st ++
             [ {| page := sourcePage; link := n; status := StatusCode code;
                  type := KindLink; error := None |} ]
    | Throw message =>
        brokenLinks st' =
        brokenLinks st ++
        [ {| page := sourcePage; link := n; status := StatusTimeout;
             type := KindLink; error := Some message |} ]
    end.
Proof.
  intros net sourcePage raw st Hfresh n st'. subst st' n.
  rewrite checkLink_fresh by exact Hfresh. simpl.
  split; [reflexivity|]. unfold link_findings.
  destruct (net _ _ _) as [message|code text]; [reflexivity|].
  destruct (ok code); [apply app_nil_r|reflexivity].
Qed.

Lemma checkLink_outcomes_witness :
  ("/blog-monakit/x" ∉ checkedLinks server_up) /\
  trace (checkLink net_down "/" "/blog-monakit/x" server_up)
  = [probe_request; mkRequest (LinkCheck "/" "/blog-monakit/x") HEAD
                              (BASE_URL +:+ "/x")] /\
  brokenLinks (checkLink net_down "/" "/blog-monakit/x" server_up)
  = [ {| page := "/"; link := "/x"; status := StatusTimeout;
         type := KindLink; error := Some "connect ECONNREFUSED" |} ].
Proof.
  split; [apply not_elem_of_empty|].
  apply (checkLink_outcomes net_down "/" "/blog-monakit/x" server_up).
  apply not_elem_of_empty.
Defined.

(** ** Seed pages (C7) *)



(** A rejected page fetch, on a concrete run: the remaining pages follow. *)
Example rejected_page_then_next :
  let net n (m : Method) (u : string) :=
    match n with
    | 0 => Response 200 (Some "")
    | 1 => Throw "socket hang up"
    | _ => Response 200 (Some "")
    end in
  fetchedPages (trace (run net "/repo" join_slash (fun _ => true)))
  = PAGES_TO_CHECK.
Proof. vm_compute. reflexivity. Qed.

(** When the probe succeeds, the pages fetched are the seed pages, in
    order, whatever the server answers afterwards. *)
Lemma run_fetches_every_seed_page
  (net : nat -> Method -> string -> Outcome) (cwd : string)
  (path_join : string -> string -> string) (existsSync : string -> bool) :
  probe_ok net = true ->
  fetchedPages (trace (run net cwd path_join existsSync)) = PAGES_TO_CHECK.
Proof.
  intros Hok. rewrite run_trace, checkServerStatus_constructor, Hok.
  edestruct (checkPages_frame net PAGES_TO_CHECK) as [_ H]; [|exact H].
  reflexivity.
Qed.

(** ** Probe failure and static files (C5, C2) *)

(** C5: when the probe is rejected or answered with a non-successful
    status, the probe is the only request of the run (no page is fetched,
    no link is checked), and [brokenLinks] holds exactly one finding of
    kind file, status NOT_FOUND, for each of the static files that is not
    on disk. *)
Theorem probe_failure_static_only :
  forall (net : nat -> Method -> string -> Outcome) (cwd : string)
         (path_join : string -> string -> string) (existsSync : string -> bool),
    probe_ok net = false ->
    let st := run net cwd path_join existsSync in
    trace st = [probe_request] /\
    fetchedPages (trace st) = [] /\
    checkedRaw (trace st) = [] /\
    brokenLinks st
    = map missing_file
          (filter (is_missing cwd path_join existsSync) staticFiles) /\
    (forall file, file ∈ staticFiles ->
                  existsSync (path_join cwd file) = false ->
                  {| page := "static"; link := file; status := StatusNotFound;
                     type := KindFile; error := None |} ∈ brokenLinks st).
Proof.
  intros net cwd path_join existsSync Hdown st. subst st. unfold run.
  rewrite checkServerStatus_constructor, Hdown.
  rewrite checkPages_down by reflexivity.
  rewrite checkStaticFiles_spec. cbn [brokenLinks trace app].
  repeat split.
  intros file Hin Hmiss.
  change (missing_file file
            ∈ map missing_file
                (filter (is_missing cwd path_join existsSync) staticFiles)).
  apply list_elem_of_In, in_map, list_elem_of_In.
  apply list_elem_of_filter. split; assumption.
Qed.

Lemma probe_failure_static_only_witness :
  probe_ok net_down = false /\
  let st := run net_down "/repo" join_slash
                (disk_without "/repo/public/netnet_result.html") in
  trace st = [probe_request] /\
  fetchedPages (trace st) = [] /\
  checkedRaw (trace st) = [] /\
  brokenLinks st
  = map missing_file
        (filter (is_missing "/repo" join_slash
                   (disk_without "/repo/public/netnet_result.html"))
                staticFiles) /\
  (forall file, file ∈ staticFiles ->
                disk_without "/repo/public/netnet_result.html"
                             (join_slash "/repo" file) = false ->
                {| page := "static"; link := file; status := StatusNotFound;
                   type := KindFile; error := None |} ∈ brokenLinks st).
Proof.
  split; [reflexivity|].
  apply (probe_failure_static_only net_down "/repo" join_slash
           (disk_without "/repo/public/netnet_result.html")).
  reflexivity.
Defined.

Example probe_failure_report :
  brokenLinks (run net_down "/repo" join_slash
                   (disk_without "/repo/public/netnet_result.html"))
  = [ {| page := "static"; link := "public/netnet_result.html";
         status := StatusNotFound; type := KindFile; error := None |} ].
Proof. vm_compute. reflexivity. Qed.

(** C2 on the code: [FILES_TO_CHECK] is declared as the list of files to
    check, but [checkStaticFiles] walks its own list and never looks at it.
    With [src/pages/index.astro] missing from the disk (and everything else
    present), the run records no finding at all, with the server down or
    up. *)
Theorem FILES_TO_CHECK_never_checked :
  "src/pages/index.astro" ∈ FILES_TO_CHECK /\
  disk_without "/repo/src/pages/index.astro"
               (join_slash "/repo" "src/pages/index.astro") = false /\
  brokenLinks (run net_down "/repo" join_slash
                   (disk_without "/repo/src/pages/index.astro")) = [] /\
  brokenLinks (run net_two_forms "/repo" join_slash
                   (disk_without "/repo/src/pages/index.astro")) = [].
Proof.
  split; [apply list_elem_of_here|]. repeat split; vm_compute; reflexivity.
Qed.

(** What [checkStaticFiles] does check: its own two files, and only them. *)
Lemma checkStaticFiles_own_list
  (cwd : string) (path_join : string -> string -> string)
  (existsSync : string -> bool) (st : State) (f : Finding) :
  f ∈ brokenLinks (checkStaticFiles cwd path_join existsSync st) <->
  f ∈ brokenLinks st \/
  exists file, file ∈ staticFiles /\
               existsSync (path_join cwd file) = false /\
               f = missing_file file.
Proof.
  rewrite checkStaticFiles_spec. cbn [brokenLinks].
  rewrite elem_of_app. apply or_iff_compat_l.
  rewrite list_elem_of_In, in_map_iff. split.
  - intros (file & <- & Hin). apply list_elem_of_In, list_elem_of_filter in Hin.
    exists file. tauto.
  - intros (file & Hin & Hmiss & ->). exists file. split; [reflexivity|].
    apply list_elem_of_In, list_elem_of_filter. split; assumption.
Qed.

(** * Further properties of the script *)

(** ** Classification and normal forms *)

(** The test for the base path in [isInternalLink] is subsumed by the test
    for a leading slash: a link is internal exactly when it starts with
    [/], [./] or [../].  A bare relative name, a URL with a scheme, a
    fragment or a query is therefore never internal, and a link that starts
    with two slashes always is. *)
Theorem isInternalLink_iff :
  forall l : string,
    isInternalLink l
    = startsWith l "/" || startsWith l "./" || startsWith l "../".
Proof.
  intros l. unfold isInternalLink.
  destruct (startsWith l "/blog-monakit/") eqn:E; [|reflexivity].
  apply startsWith_inv in E as [r ->]. reflexivity.
Qed.

(** The links [normalizeLink] leaves alone are those that start with a
    slash and not with the base path. *)
Theorem normalizeLink_fixed_iff :
  forall y : string,
    normalizeLink y = y <->
    startsWith y "/" = true /\ startsWith y "/blog-monakit/" = false.
Proof.
  intros y. split.
  - intros Hfix. split.
    + rewrite <- Hfix. apply normalizeLink_leading_slash.
    + destruct (startsWith y "/blog-monakit/") eqn:E; [|reflexivity].
      apply startsWith_inv in E as [r ->].
      rewrite normalizeLink_prefixed in Hfix.
      apply (f_equal String.length) in Hfix. simpl in Hfix. lia.
  - intros [H1 H2]. apply normalizeLink_rooted; assumption.
Qed.

Lemma normalizeLink_length (l : string) :
  String.length (normalizeLink l) <= S (String.length l).
Proof.
  destruct (normalizeLink_cases l)
    as [(r & -> & ->) | [(_ & _ & ->) | (_ & ->)]]; simpl; lia.
Qed.

Lemma iter_fixed (n : nat) (y : string) :
  normalizeLink y = y -> Nat.iter n normalizeLink y = y.
Proof. intros H. induction n as [|n IH]; simpl; congruence. Qed.

Lemma normalizeLink_iter_rooted (n : nat) (y : string) :
  startsWith y "/" = true -> String.length y <= S n ->
  normalizeLink (Nat.iter n normalizeLink y) = Nat.iter n normalizeLink y.
Proof.
  revert y. induction n as [|n IH]; intros y Hy Hlen.
  - apply startsWith_inv in Hy as [r ->]. destruct r; [reflexivity|].
    simpl in Hlen. lia.
  - destruct (startsWith y "/blog-monakit/") eqn:E.
    + rewrite Nat.iter_succ_r.
      apply startsWith_inv in E as [r ->]. rewrite normalizeLink_prefixed.
      apply IH; [reflexivity|]. simpl in *. lia.
    + assert (Hfix : normalizeLink y = y) by (apply normalizeLink_rooted; auto).
      rewrite iter_fixed by exact Hfix. exact Hfix.
Qed.

(** Normalizing again and again comes to rest: after one more pass than
    the link has characters the result is a normal form, which further
    passes leave unchanged. *)
Theorem normalizeLink_stabilizes :
  forall (x : string) (k : nat),
    let y := Nat.iter (S (String.length x)) normalizeLink x in
    normalizeLink y = y /\ Nat.iter k normalizeLink y = y.
Proof.
  intros x k y.
  assert (Hfix : normalizeLink y = y).
  { subst y. rewrite Nat.iter_succ_r. apply normalizeLink_iter_rooted.
    - apply normalizeLink_leading_slash.
    - apply normalizeLink_length. }
  split; [exact Hfix|apply iter_fixed, Hfix].
Qed.

Example normalizeLink_three_passes :
  Nat.iter 3 normalizeLink "blog-monakit/blog-monakit/a" = "/a".
Proof. reflexivity. Qed.

(** ** What the extractor returns *)

Lemma append_assoc_s (a b c : string) : (a +:+ b) +:+ c = a +:+ (b +:+ c).
Proof. induction a as [|x a IH]; simpl; [reflexivity|]. rewrite IH. reflexivity. Qed.

Lemma matchAll_occurs (f : nat) (s v : string) :
  v ∈ matchAll f s ->
  exists pre tail rest, s = pre +:+ tail /\ Regex.match_here tail = Some (v, rest).
Proof.
  revert s. induction f as [|f IH]; intros s Hv; simpl in Hv.
  - apply elem_of_nil in Hv as [].
  - destruct (Regex.exec s) as [[v' rest']|] eqn:E.
    2: { apply elem_of_nil in Hv as []. }
    apply RegexFacts.exec_leftmost in E as (pre & tail & -> & Hm & _).
    apply elem_of_cons in Hv as [->|Hv].
    + exists pre, tail, rest'. split; [reflexivity|exact Hm].
    + destruct (IH _ Hv) as (pre2 & tail2 & rest2 & -> & Hm2).
      apply RegexFacts.match_here_spec in Hm
        as (q1 & q2 & _ & _ & _ & _ & ->).
      exists (pre +:+ "href=" +:+ String q1 (v' +:+ String q2 pre2)), tail2, rest2.
      split; [|exact Hm2].
      rewrite !append_assoc_s. simpl. rewrite !append_assoc_s. reflexivity.
Qed.

(** Every link the extractor returns is internal, is not empty, contains no
    quote, and stands in the page between [href=] plus a quote and a
    closing quote (which need not be of the same kind as the opening
    one). *)
Theorem extractLinks_sound :
  forall (html l : string),
    l ∈ extractLinks html ->
    isInternalLink l = true /\ l <> "" /\ Regex.quote_free l = true /\
    exists pre q1 q2 post,
      Regex.is_quote q1 = true /\ Regex.is_quote q2 = true /\
      html = pre +:+ "href=" +:+ String q1 (l +:+ String q2 post).
Proof.
  intros html l Hl. apply extractLinks_elem in Hl as [Hl Hi].
  apply matchAll_occurs in Hl as (pre & tail & rest & -> & Hm).
  apply RegexFacts.match_here_spec in Hm as (q1 & q2 & Q1 & Q2 & Hne & Hq & ->).
  repeat split; try assumption.
  exists pre, q1, q2, rest. repeat split; assumption.
Qed.

Lemma extractLinks_sound_witness :
  "/a" ∈ extractLinks "<a href='/a'>a</a>" /\
  isInternalLink "/a" = true /\ "/a" <> "" /\ Regex.quote_free "/a" = true /\
  exists pre q1 q2 post,
    Regex.is_quote q1 = true /\ Regex.is_quote q2 = true /\
    "<a href='/a'>a</a>" = pre +:+ "href=" +:+ String q1 ("/a" +:+ String q2 post).
Proof.
  assert (H : "/a" ∈ extractLinks "<a href='/a'>a</a>") by apply list_elem_of_here.
  split; [exact H|].
  exact (extractLinks_sound "<a href='/a'>a</a>" "/a" H).
Defined.

Lemma Set_fold_sublist (l acc : list string) :
  exists k, fold_left Set_add l acc = acc ++ k /\ k `sublist_of` l.
Proof.
  revert acc. induction l as [|x l IH]; intros acc; simpl.
  - exists []. rewrite app_nil_r. split; [reflexivity|constructor].
  - unfold Set_add at 2. case_bool_decide as Hx.
    + destruct (IH acc) as (k & -> & Hk). exists k.
      split; [reflexivity|]. apply sublist_cons, Hk.
    + destruct (IH (acc ++ [x])) as (k & -> & Hk). exists (x :: k).
      split; [rewrite <- app_assoc; reflexivity|]. apply sublist_skip, Hk.
Qed.

(** The extractor keeps the order of the page: its result is what is left
    of the sequence of matched href values after dropping the external
    ones and the repetitions. *)
Theorem extractLinks_in_page_order :
  forall html : string, extractLinks html `sublist_of` hrefValues html.
Proof.
  intros html. rewrite extractLinks_hrefValues. unfold Set_spread.
  destruct (Set_fold_sublist
              (filter (fun l => isInternalLink l) (hrefValues html)) [])
    as (k & -> & Hk).
  simpl. etransitivity; [exact Hk|]. apply sublist_filter.
Qed.

(** A page that begins with an href whose value is internal and free of
    quotes yields that value as its first link, whichever of the two
    quotes opens and closes it. *)
Theorem extractLinks_first :
  forall (q1 q2 : ascii) (v rest : string),
    Regex.is_quote q1 = true -> Regex.is_quote q2 = true ->
    Regex.quote_free v = true -> isInternalLink v = true ->
    exists others,
      extractLinks ("href=" +:+ String q1 (v +:+ String q2 rest)) = v :: others.
Proof.
  intros q1 q2 v rest Q1 Q2 Hq Hi.
  assert (Hne : v <> "") by (intros ->; discriminate Hi).
  set (html := "href=" +:+ String q1 (v +:+ String q2 rest)).
  assert (He : Regex.exec html = Some (v, rest)).
  { assert (Hm : Regex.match_here html = Some (v, rest)).
    { apply RegexFacts.match_here_spec. exists q1, q2. auto. }
    change html with (String "h" ("ref=" +:+ String q1 (v +:+ String q2 rest))) in *.
    rewrite RegexFacts.exec_cons, Hm. reflexivity. }
  rewrite extractLinks_hrefValues. unfold hrefValues.
  assert (Hlen : String.length html = S (String.length html - 1))
    by (subst html; simpl; lia).
  rewrite Hlen. cbn [matchAll]. rewrite He, filter_cons.
  rewrite decide_True by (rewrite Hi; exact I).
  unfold Set_spread. cbn [fold_left].
  destruct (Set_fold_sublist
              (filter (fun l => isInternalLink l)
                      (matchAll (String.length html - 1) rest))
              (Set_add [] v)) as (k & -> & _).
  exists k. reflexivity.
Qed.

Lemma extractLinks_first_witness :
  (Regex.is_quote Regex.dquote = true /\ Regex.is_quote Regex.squote = true /\
   Regex.quote_free "./a.css" = true /\ isInternalLink "./a.css" = true) /\
  exists others,
    extractLinks ("href=" +:+ String Regex.dquote
                    ("./a.css" +:+ String Regex.squote "> <a href='/b'>"))
    = "./a.css" :: others.
Proof.
  split; [repeat split|].
  exact (extractLinks_first Regex.dquote Regex.squote "./a.css"
           "> <a href='/b'>" eq_refl eq_refl eq_refl eq_refl).
Defined.

(** ** Invariants of the crawl *)

(** A property of the state survives the loop over the seed pages as soon
    as it survives its three elementary moves: sending the request for a
    page, recording a page finding, and checking a link for the first
    time. *)
Lemma checkPages_preserves
  (net : nat -> Method -> string -> Outcome) (pages : list string)
  (P : State -> Prop) :
  (forall page st,
      page ∈ pages ->
      (forall code text,
          net (length (trace st)) GET (BASE_URL +:+ page) = Response code text ->
          ok code = true) ->
      P st -> P (fetched net page st)) ->
  (forall page code text st,
      page ∈ pages ->
      net (length (trace st)) GET (BASE_URL +:+ page) = Response code text ->
      ok code = false ->
      P st -> P (push (page_finding page code) (fetched net page st))) ->
  (forall p l st,
      p ∈ pages -> isInternalLink l = true -> l ∉ checkedLinks st ->
      P st -> P (checkLink net p l st)) ->
  forall ps st, (forall p, p ∈ ps -> p ∈ pages) -> P st ->
                P (checkPages net ps st).
Proof.
  intros Hfetch Hpage Hlink.
  assert (Hlinks : forall p ls st,
             p ∈ pages -> Forall (fun l => isInternalLink l = true) ls ->
             P st -> P (checkLinks net p ls st)).
  { intros p ls st Hp Hls. revert st.
    induction Hls as [|l ls Hl _ IH]; intros st HP; [exact HP|].
    rewrite checkLinks_cons. apply IH.
    destruct (decide (l ∈ checkedLinks st)) as [Hin|Hout].
    - rewrite checkLink_seen by exact Hin. exact HP.
    - apply Hlink; assumption. }
  assert (Hone : forall page st, page ∈ pages -> P st ->
                                 P (checkPageLinks net page st)).
  { intros page st Hp HP. destruct (serverRunning st) eqn:Hup.
    2: { rewrite checkPageLinks_down by exact Hup. exact HP. }
    rewrite checkPageLinks_up by exact Hup.
    destruct (net (length (trace st)) GET (BASE_URL +:+ page))
      as [message|code [html|]] eqn:E.
    - apply Hfetch; [exact Hp| |exact HP].
      intros code' text' H. rewrite E in H. discriminate H.
    - destruct (ok code) eqn:Hok.
      + apply Hlinks; [exact Hp|apply extractLinks_internal|].
        apply Hfetch; [exact Hp| |exact HP].
        intros code' text' H. rewrite E in H. injection H as <- _. exact Hok.
      + eapply Hpage; eassumption.
    - destruct (ok code) eqn:Hok.
      + apply Hfetch; [exact Hp| |exact HP].
        intros code' text' H. rewrite E in H. injection H as <- _. exact Hok.
      + eapply Hpage; eassumption. }
  intros ps. induction ps as [|page ps IH]; intros st Hsub HP; [exact HP|].
  rewrite checkPages_cons. apply IH.
  - intros p Hp. apply Hsub. right. exact Hp.
  - apply Hone; [apply Hsub; left|exact HP].
Qed.

Lemma link_findings_length (p l : string) (o : Outcome) :
  length (link_findings p l o) <= 1.
Proof.
  destruct o as [message|code text]; simpl; [lia|].
  destruct (ok code); simpl; lia.
Qed.

Lemma link_findings_ok (pages : list string) (cwd : string)
  (path_join : string -> string -> string) (existsSync : string -> bool)
  (p l : string) (o : Outcome) :
  p ∈ pages -> isInternalLink l = true ->
  Forall (finding_ok pages cwd path_join existsSync) (link_findings p l o).
Proof.
  intros Hp Hl. destruct o as [message|code text]; simpl.
  - apply Forall_singleton. unfold finding_ok. simpl. eauto 10.
  - destruct (ok code) eqn:Hok; [constructor|].
    apply Forall_singleton. unfold finding_ok. simpl. eauto 10.
Qed.

(** Every entry of the report of a run has the shape of its kind: a page
    finding names a seed page and carries a non-successful status code; a
    link finding names the seed page it was found on and the normalized
    form of an internal link, with either a non-successful status code or
    TIMEOUT and an error message; a file finding names one of the static
    files, absent from the disk, with NOT_FOUND.  In particular no finding
    carries a successful status. *)
Theorem run_findings_shape :
  forall (net : nat -> Method -> string -> Outcome) (cwd : string)
         (path_join : string -> string -> string) (existsSync : string -> bool),
    Forall (finding_ok PAGES_TO_CHECK cwd path_join existsSync)
           (brokenLinks (run net cwd path_join existsSync)).
Proof.
  intros net cwd path_join existsSync. unfold run.
  rewrite checkStaticFiles_spec. cbn [brokenLinks]. apply Forall_app. split.
  - apply (checkPages_preserves net PAGES_TO_CHECK
             (fun st => Forall (finding_ok PAGES_TO_CHECK cwd path_join existsSync)
                               (brokenLinks st))).
    + intros page st _ _ H. exact H.
    + intros page code text st Hp _ Hok H. simpl.
      apply Forall_app. split; [exact H|]. apply Forall_singleton.
      unfold finding_ok. simpl. eauto 10.
    + intros p l st Hp Hl Hout H. rewrite checkLink_fresh by exact Hout.
      simpl. apply Forall_app. split; [exact H|].
      apply link_findings_ok; assumption.
    + auto.
    + rewrite checkServerStatus_constructor. constructor.
  - apply Forall_forall. intros f Hf.
    apply list_elem_of_In, in_map_iff in Hf as (file & <- & Hin).
    apply list_elem_of_In, list_elem_of_filter in Hin as [Hmiss Hin].
    unfold finding_ok. simpl. repeat split; assumption.
Qed.

Lemma found_on_mono (net : nat -> Method -> string -> Outcome)
  (tr more : list Request) (i i' : nat) (p l : string) :
  i <= i' -> found_on net tr i p l -> found_on net (tr ++ more) i' p l.
Proof.
  intros Hi (j & code & html & Hj & Hlook & Hnet & Hok & Hl).
  exists j, code, html. repeat split; try assumption; [lia|].
  apply lookup_app_l_Some, Hlook.
Qed.

Lemma request_ok_mono (pages : list string)
  (net : nat -> Method -> string -> Outcome) (tr more : list Request)
  (i : nat) (r : Request) :
  request_ok pages net tr i r -> request_ok pages net (tr ++ more) i r.
Proof.
  unfold request_ok. destruct (call r) as [|p|p l]; [auto|auto|].
  intros (Hp & Hl & Hm & Hu & Hf). repeat split; try assumption.
  apply (found_on_mono net tr more i i p l); [lia|exact Hf].
Qed.

Lemma requests_ok_snoc (pages : list string)
  (net : nat -> Method -> string -> Outcome) (tr : list Request) (x : Request) :
  requests_ok pages net tr ->
  request_ok pages net (tr ++ [x]) (length tr) x ->
  requests_ok pages net (tr ++ [x]).
Proof.
  intros Htr Hx i r Hi.
  apply lookup_snoc_Some in Hi as [[_ Hi]|[-> <-]]; [|exact Hx].
  apply request_ok_mono, Htr, Hi.
Qed.

Lemma checkLinks_requests_ok (pages : list string)
  (net : nat -> Method -> string -> Outcome)
  (p : string) (ls : list string) (st : State) :
  p ∈ pages ->
  (forall l, l ∈ ls ->
             isInternalLink l = true /\
             found_on net (trace st) (length (trace st)) p l) ->
  requests_ok pages net (trace st) ->
  requests_ok pages net (trace (checkLinks net p ls st)).
Proof.
  intros Hp. revert st. induction ls as [|l ls IH]; intros st Hls Hst.
  - exact Hst.
  - rewrite checkLinks_cons.
    destruct (decide (l ∈ checkedLinks st)) as [Hin|Hout].
    + rewrite checkLink_seen by exact Hin. apply IH; [|exact Hst].
      intros x Hx. apply Hls. right. exact Hx.
    + destruct (Hls l) as [Hl Hf]; [left|].
      apply IH; rewrite checkLink_fresh by exact Hout; cbn [trace].
      * intros x Hx. destruct (Hls x) as [Hx1 Hx2]; [right; exact Hx|].
        split; [exact Hx1|].
        apply (found_on_mono net (trace st) _ (length (trace st)));
          [rewrite length_app; lia|exact Hx2].
      * apply requests_ok_snoc; [exact Hst|].
        unfold request_ok. cbn [call method url]. repeat split; try assumption.
        apply (found_on_mono net (trace st) _ (length (trace st)));
          [lia|exact Hf].
Qed.

Lemma checkPageLinks_requests_ok (pages : list string)
  (net : nat -> Method -> string -> Outcome) (page : string) (st : State) :
  page ∈ pages ->
  requests_ok pages net (trace st) ->
  requests_ok pages net (trace (checkPageLinks net page st)).
Proof.
  intros Hp Hst. destruct (serverRunning st) eqn:Hup.
  2: { rewrite checkPageLinks_down by exact Hup. exact Hst. }
  rewrite checkPageLinks_up by exact Hup.
  assert (Hf : requests_ok pages net (trace (fetched net page st))).
  { cbn [fetched fetch snd trace]. apply requests_ok_snoc; [exact Hst|].
    unfold request_ok. cbn [call method url]. auto. }
  destruct (net (length (trace st)) GET (BASE_URL +:+ page))
    as [message|code [html|]] eqn:E; [exact Hf| |].
  - destruct (ok code) eqn:Hok; [|exact Hf].
    apply checkLinks_requests_ok; [exact Hp| |exact Hf].
    intros l Hl. split; [apply extractLinks_elem in Hl; tauto|].
    exists (length (trace st)), code, html.
    cbn [fetched fetch snd trace]. rewrite length_app. cbn [length].
    repeat split; try assumption; [lia|].
    apply lookup_snoc_Some. right. split; reflexivity.
  - destruct (ok code); exact Hf.
Qed.

Lemma checkPages_requests_ok (pages : list string)
  (net : nat -> Method -> string -> Outcome) (ps : list string) (st : State) :
  (forall p, p ∈ ps -> p ∈ pages) ->
  requests_ok pages net (trace st) ->
  requests_ok pages net (trace (checkPages net ps st)).
Proof.
  revert st. induction ps as [|page ps IH]; intros st Hsub Hst; [exact Hst|].
  rewrite checkPages_cons. apply IH.
  - intros p Hp. apply Hsub. right. exact Hp.
  - apply checkPageLinks_requests_ok; [apply Hsub; left|exact Hst].
Qed.

Lemma request_fetch_argument (pages : list string)
  (net : nat -> Method -> string -> Outcome) (tr : list Request)
  (i : nat) (r : Request) :
  Forall (fun p => startsWith p "/" = true) pages ->
  request_ok pages net tr i r ->
  startsWith (url r) (BASE_URL +:+ "/") = true.
Proof.
  intros Hpages Hr. rewrite Forall_forall in Hpages.
  assert (Hslash : forall p, startsWith p "/" = true ->
                             startsWith (BASE_URL +:+ p) (BASE_URL +:+ "/") = true).
  { intros p Hp. apply startsWith_inv in Hp as [t ->].
    rewrite <- append_assoc_s. apply startsWith_app. }
  unfold request_ok in Hr. destruct (call r) as [|p|p l].
  - destruct Hr as (_ & _ & ->). apply Hslash. reflexivity.
  - destruct Hr as (Hp & _ & ->). apply Hslash, Hpages, Hp.
  - destruct Hr as (_ & _ & _ & -> & _). apply Hslash, normalizeLink_leading_slash.
Qed.

(** The requests of a run, one by one: the probe is request number 0; a
    GET goes to [BASE_URL + p] for a seed page [p]; a HEAD goes to
    [BASE_URL + normalizeLink l] for an internal link [l] that was extracted
    from the body of a successful answer to an earlier fetch of a seed
    page (one hop, no recursion).  The string handed to [fetch] always
    starts with [BASE_URL/]; the path after it is passed on as it is, dot
    segments included, and what [fetch] makes of it is not modelled. *)
Theorem run_requests_shape :
  forall (net : nat -> Method -> string -> Outcome) (cwd : string)
         (path_join : string -> string -> string) (existsSync : string -> bool)
         (i : nat) (r : Request),
    let tr := trace (run net cwd path_join existsSync) in
    tr !! i = Some r ->
    request_ok PAGES_TO_CHECK net tr i r /\
    startsWith (url r) (BASE_URL +:+ "/") = true.
Proof.
  intros net cwd path_join existsSync i r tr Hi.
  assert (H : requests_ok PAGES_TO_CHECK net tr).
  { subst tr. rewrite run_trace. apply checkPages_requests_ok; [auto|].
    rewrite checkServerStatus_constructor. cbn [trace].
    intros j x Hj. apply list_lookup_singleton_Some in Hj as [-> <-].
    unfold request_ok. cbn. auto. }
  split; [exact (H i r Hi)|].
  apply (request_fetch_argument PAGES_TO_CHECK net tr i); [|exact (H i r Hi)].
  repeat constructor.
Qed.

Lemma run_requests_shape_witness :
  let tr := trace (run net_two_forms "/repo" join_slash (fun _ => true)) in
  let r := mkRequest (LinkCheck "/" "/blog-monakit/x") HEAD (BASE_URL +:+ "/x") in
  tr !! 2 = Some r /\
  request_ok PAGES_TO_CHECK net_two_forms tr 2 r /\
  startsWith (url r) (BASE_URL +:+ "/") = true.
Proof.
  intros tr r.
  assert (H : tr !! 2 = Some r) by (vm_compute; reflexivity).
  split; [exact H|].
  exact (run_requests_shape net_two_forms "/repo" join_slash (fun _ => true)
           2 r H).
Defined.

(** A relative link with dot segments is handed to [fetch] unresolved. *)
Example dot_segments_unresolved :
  let net n (m : Method) (u : string) :=
    match m with
    | HEAD => Response 200 None
    | GET =>
        if String.eqb u (BASE_URL +:+ "/") then
          Response 200 (Some "<a href='../secret'>s</a>")
        else Response 200 (Some "")
    end in
  trace (run net "/repo" join_slash (fun _ => true)) !! 2
  = Some (mkRequest (LinkCheck "/" "../secret") HEAD
                    "http://localhost:4321/blog-monakit/../secret").
Proof. vm_compute. reflexivity. Qed.

(** Each request accounts for at most one finding, and the probe for none:
    the report is shorter than the list of requests, not counting the
    findings for missing static files. *)
Theorem run_findings_bounded :
  forall (net : nat -> Method -> string -> Outcome) (cwd : string)
         (path_join : string -> string -> string) (existsSync : string -> bool),
    let st := run net cwd path_join existsSync in
    length (brokenLinks st)
    < length (trace st)
      + length (filter (is_missing cwd path_join existsSync) staticFiles).
Proof.
  intros net cwd path_join existsSync st. subst st. unfold run.
  rewrite checkStaticFiles_spec. cbn [brokenLinks trace].
  rewrite length_app, length_map.
  enough (length (brokenLinks (checkPages net PAGES_TO_CHECK
                                 (checkServerStatus net constructor)))
          < length (trace (checkPages net PAGES_TO_CHECK
                             (checkServerStatus net constructor)))) by lia.
  apply (checkPages_preserves net PAGES_TO_CHECK
           (fun st => length (brokenLinks st) < length (trace st))).
  - intros page st _ _ H. simpl. rewrite length_app. simpl. lia.
  - intros page code text st _ _ _ H. simpl. rewrite !length_app. simpl. lia.
  - intros p l st _ _ Hout H. rewrite checkLink_fresh by exact Hout.
    cbn [brokenLinks trace]. rewrite !length_app. cbn [length].
    pose proof (link_findings_length p l
                  (net (length (trace st)) HEAD (BASE_URL +:+ normalizeLink l))).
    lia.
  - auto.
  - rewrite checkServerStatus_constructor. simpl. lia.
Qed.

(** The loop over the seed pages only ever appends: the findings and the
    requests it starts from stay where they are, in order, at the head of
    the lists; no link leaves [checkedLinks]; [serverRunning] keeps its
    value. *)
Theorem checkPages_monotone :
  forall (net : nat -> Method -> string -> Outcome)
         (pages : list string) (st : State),
    let st' := checkPages net pages st in
    brokenLinks st `prefix_of` brokenLinks st' /\
    trace st `prefix_of` trace st' /\
    checkedLinks st ⊆ checkedLinks st' /\
    serverRunning st' = serverRunning st.
Proof.
  intros net pages st st'. subst st'.
  apply (checkPages_preserves net pages
           (fun st' => brokenLinks st `prefix_of` brokenLinks st' /\
                       trace st `prefix_of` trace st' /\
                       checkedLinks st ⊆ checkedLinks st' /\
                       serverRunning st' = serverRunning st)).
  - intros page s _ _ (Hb & Ht & Hc & Hs). simpl.
    repeat split; try assumption. apply prefix_app_r, Ht.
  - intros page code text s _ _ _ (Hb & Ht & Hc & Hs). simpl.
    repeat split; try assumption; apply prefix_app_r; assumption.
  - intros p l s _ _ Hout (Hb & Ht & Hc & Hs).
    rewrite checkLink_fresh by exact Hout. simpl.
    repeat split; try assumption; [apply prefix_app_r, Hb
                                  |apply prefix_app_r, Ht|set_solver].
  - auto.
  - repeat split; reflexivity.
Qed.

Lemma checkLinks_seen (net : nat -> Method -> string -> Outcome)
  (p : string) (ls : list string) (st : State) :
  (forall l, l ∈ ls -> l ∈ checkedLinks st) -> checkLinks net p ls st = st.
Proof.
  induction ls as [|l ls IH]; intros H; [reflexivity|].
  rewrite checkLinks_cons, checkLink_seen by (apply H; left).
  apply IH. intros x Hx. apply H. right. exact Hx.
Qed.

Lemma checkLinks_checked (net : nat -> Method -> string -> Outcome)
  (p : string) (ls : list string) (st : State) (l : string) :
  l ∈ ls \/ l ∈ checkedLinks st -> l ∈ checkedLinks (checkLinks net p ls st).
Proof.
  revert st. induction ls as [|x ls IH]; intros st H.
  - destruct H as [H|H]; [apply elem_of_nil in H as []|exact H].
  - rewrite checkLinks_cons. apply IH.
    destruct (checkLink_frame net p x st) as (_ & Hsub & Hx & _).
    destruct H as [H|H].
    + apply elem_of_cons in H as [->|H]; [right; exact Hx|left; exact H].
    + right. apply Hsub, H.
Qed.

(** Checking the same links a second time, from the same page or from
    another one, does nothing at all: no request, no finding.  A link is
    reported for the first page it was seen on only. *)
Theorem checkLinks_twice :
  forall (net : nat -> Method -> string -> Outcome)
         (p1 p2 : string) (ls : list string) (st : State),
    checkLinks net p2 ls (checkLinks net p1 ls st) = checkLinks net p1 ls st.
Proof.
  intros net p1 p2 ls st. apply checkLinks_seen.
  intros l Hl. apply checkLinks_checked. left. exact Hl.
Qed.

(** ** The report against the answers of the server *)

Lemma recorded_mono (net : nat -> Method -> string -> Outcome)
  (report more : list Finding) (i : nat) (r : Request) :
  recorded net report i r -> recorded net (report ++ more) i r.
Proof.
  unfold recorded. destruct (call r) as [|p|p l]; [auto| |].
  - destruct (net i (method r) (url r)) as [|code text]; [auto|].
    destruct (ok code); [auto|]. intros H. apply elem_of_app. left. exact H.
  - intros H. eapply Forall_impl; [exact H|].
    intros f Hf. apply elem_of_app. left. exact Hf.
Qed.

(** No failure is lost: for every request of a run, a seed page answered
    with a non-successful status has its page finding in the report, and a
    link whose check was answered with a non-successful status or was
    rejected has its link finding there. *)
Theorem run_report_complete :
  forall (net : nat -> Method -> string -> Outcome) (cwd : string)
         (path_join : string -> string -> string) (existsSync : string -> bool)
         (i : nat) (r : Request),
    trace (run net cwd path_join existsSync) !! i = Some r ->
    recorded net (brokenLinks (run net cwd path_join existsSync)) i r.
Proof.
  intros net cwd path_join existsSync i r. rewrite run_trace. unfold run.
  rewrite checkStaticFiles_spec. cbn [brokenLinks]. intros Hi.
  apply recorded_mono. revert i r Hi.
  apply (checkPages_preserves net PAGES_TO_CHECK
           (fun st => forall i r, trace st !! i = Some r ->
                                  recorded net (brokenLinks st) i r)).
  - intros page st _ Hok H i r Hi. cbn [fetched fetch snd trace brokenLinks] in *.
    apply lookup_snoc_Some in Hi as [[_ Hi]|[-> <-]]; [apply H, Hi|].
    unfold recorded. cbn [call method url].
    destruct (net _ _ _) as [|code text] eqn:E; [exact I|].
    rewrite (Hok code text eq_refl). exact I.
  - intros page code text st _ E Hok H i r Hi.
    cbn [push fetched fetch snd trace brokenLinks] in *.
    apply lookup_snoc_Some in Hi as [[_ Hi]|[-> <-]].
    + apply recorded_mono, H, Hi.
    + unfold recorded. cbn [call method url]. rewrite E, Hok.
      apply elem_of_app. right. apply list_elem_of_here.
  - intros p l st _ _ Hout H i r. rewrite checkLink_fresh by exact Hout.
    cbn [trace brokenLinks]. intros Hi.
    apply lookup_snoc_Some in Hi as [[_ Hi]|[-> <-]].
    + apply recorded_mono, H, Hi.
    + unfold recorded. cbn [call method url].
      apply Forall_forall. intros f Hf. apply elem_of_app. right. exact Hf.
  - auto.
  - rewrite checkServerStatus_constructor. cbn [trace brokenLinks].
    intros i r Hi. apply list_lookup_singleton_Some in Hi as [-> <-]. exact I.
Qed.

Lemma run_report_complete_witness :
  let r := mkRequest (PageFetch "/") GET (BASE_URL +:+ "/") in
  trace (run net_404 "/repo" join_slash (fun _ => true)) !! 1 = Some r /\
  recorded net_404
    (brokenLinks (run net_404 "/repo" join_slash (fun _ => true))) 1 r.
Proof.
  intros r.
  assert (H : trace (run net_404 "/repo" join_slash (fun _ => true)) !! 1
              = Some r) by (vm_compute; reflexivity).
  split; [exact H|].
  exact (run_report_complete net_404 "/repo" join_slash (fun _ => true) 1 r H).
Defined.

(** The scenario of a single broken link: the home page refers to
    [/missing-page], which the server answers with 404, everything else is
    fine; the report holds that one finding. *)
Example one_broken_link :
  let net n (m : Method) (u : string) :=
    match m with
    | HEAD => Response 404 None
    | GET =>
        if String.eqb u (BASE_URL +:+ "/") then
          Response 200 (Some "<a href='/missing-page'>m</a>")
        else Response 200 (Some "")
    end in
  brokenLinks (run net "/repo" join_slash (fun _ => true))
  = [ {| page := "/"; link := "/missing-page"; status := StatusCode 404;
         type := KindLink; error := None |} ].
Proof. vm_compute. reflexivity. Qed.

(** ** The reporter *)

Module ReportFacts.
Import Report.

Lemma block_length (index : nat) (broken : Finding) :
  length (block index broken)
  = 5 + (if truthy (error broken) then 1 else 0).
Proof.
  unfold block. rewrite !length_app. destruct (error broken) as [[|c m]|]; reflexivity.
Qed.

Lemma forEach_length (index : nat) (findings : list Finding) :
  length (forEach index findings)
  = 5 * length findings
    + length (filter (fun f => truthy (error f)) findings).
Proof.
  revert index. induction findings as [|f fs IH]; intros index; [reflexivity|].
  cbn [forEach]. rewrite length_app, block_length, IH, filter_cons.
  destruct (truthy (error f)).
  - rewrite decide_True by exact I. cbn [length]. lia.
  - rewrite decide_False by (intros []). cbn [length]. lia.
Qed.

Lemma forEach_block (index i : nat) (findings : list Finding) (f : Finding) :
  findings !! i = Some f ->
  exists before after,
    forEach index findings = before ++ block (index + i) f ++ after.
Proof.
  revert index i. induction findings as [|g fs IH]; intros index i H.
  - discriminate H.
  - destruct i as [|i]; cbn [forEach].
    + injection H as ->. exists [], (forEach (S index) fs).
      rewrite Nat.add_0_r. reflexivity.
    + destruct (IH (S index) i H) as (before & after & ->).
      exists (block index g ++ before), after.
      replace (index + S i) with (S index + i) by lia.
      rewrite <- app_assoc. reflexivity.
Qed.

Lemma last_char_append (d c : ascii) (x y : string) :
  last_char d (x +:+ String c y) = last_char c y.
Proof. revert d. induction x as [|a x IH]; intros d; simpl; [reflexivity|apply IH]. Qed.

Lemma block_not_all_clear (index : nat) (broken : Finding) :
  all_clear ∉ block index broken.
Proof.
  unfold block. rewrite !elem_of_app, !elem_of_cons, !elem_of_nil.
  intros [[H|[H|[H|[H|[]]]]]|[H|[H|[]]]]; try discriminate H.
  - apply (f_equal (last_char "000")) in H.
    change (". " +:+ toUpperCase (type_text (type broken)))
      with (String "." (String " " (toUpperCase (type_text (type broken)))))
      in H.
    rewrite last_char_append in H.
    destruct (type broken); vm_compute in H; discriminate H.
  - destruct (error broken) as [[|c m]|]; simpl in H;
      try (apply elem_of_nil in H as []).
    apply list_elem_of_singleton in H. discriminate H.
Qed.

Lemma forEach_not_all_clear (index : nat) (findings : list Finding) :
  all_clear ∉ forEach index findings.
Proof.
  revert index. induction findings as [|f fs IH]; intros index; cbn [forEach].
  - apply not_elem_of_nil.
  - rewrite elem_of_app. intros [H|H].
    + exact (block_not_all_clear index f H).
    + exact (IH (S index) H).
Qed.

End ReportFacts.

(** The number of calls to [console.log]: three when nothing is broken;
    otherwise seven fixed calls, five for each finding and one more for
    each finding with a non-empty error message. *)
Theorem displayResults_length :
  forall st : State,
    length (Report.displayResults st)
    = match brokenLinks st with
      | [] => 3
      | _ :: _ =>
          7 + 5 * length (brokenLinks st)
          + length (filter (fun f => Report.truthy (error f)) (brokenLinks st))
      end.
Proof.
  intros st. unfold Report.displayResults.
  destruct (brokenLinks st) as [|f fs]; [reflexivity|].
  rewrite !length_app, ReportFacts.forEach_length. simpl. lia.
Qed.

(** Every finding is printed: the finding at position [i] of [brokenLinks]
    has its own run of consecutive lines in the report, numbered [i + 1],
    with its kind in capitals, its page, its link, its status, and its
    error message when that is a non-empty string. *)
Theorem displayResults_block :
  forall (st : State) (i : nat) (f : Finding),
    brokenLinks st !! i = Some f ->
    exists before after,
      Report.displayResults st = before ++ Report.block i f ++ after.
Proof.
  intros st i f H. unfold Report.displayResults.
  destruct (brokenLinks st) as [|g fs] eqn:E; [discriminate H|].
  destruct (ReportFacts.forEach_block 0 i (g :: fs) f H)
    as (before & after & ->).
  exists (Report.heading
            ++ [Report.count_line (length (g :: fs))] ++ before),
         (after ++ Report.hints).
  rewrite <- !app_assoc. reflexivity.
Qed.

Lemma displayResults_block_witness :
  let st := run net_404 "/repo" join_slash (fun _ => true) in
  let f := {| page := "/blogs"; link := "/blogs"; status := StatusCode 404;
              type := KindPage; error := None |} in
  brokenLinks st !! 1 = Some f /\
  exists before after,
    Report.displayResults st = before ++ Report.block 1 f ++ after.
Proof.
  intros st f.
  assert (H : brokenLinks st !! 1 = Some f) by (vm_compute; reflexivity).
  split; [exact H|]. exact (displayResults_block st 1 f H).
Defined.

Example block_of_timeout :
  Report.block 2 {| page := "/blogs"; link := "/x"; status := StatusTimeout;
                    type := KindLink; error := Some "socket hang up" |}
  = [ "3. LINK"; "   ページ: /blogs"; "   リンク: /x";
      "   ステータス: TIMEOUT"; "   エラー: socket hang up"; "" ].
Proof. vm_compute. reflexivity. Qed.

Example block_of_page_404 :
  Report.block 0 {| page := "/"; link := "/"; status := StatusCode 404;
                    type := KindPage; error := None |}
  = [ "1. PAGE"; "   ページ: /"; "   リンク: /"; "   ステータス: 404"; "" ].
Proof. vm_compute. reflexivity. Qed.

(** [console.log] is called with the all-clear message as its whole
    argument exactly when no finding was recorded. *)
Theorem displayResults_all_clear_iff :
  forall st : State,
    Report.all_clear ∈ Report.displayResults st <-> brokenLinks st = [].
Proof.
  intros st. unfold Report.displayResults. split.
  - destruct (brokenLinks st) as [|f fs]; [reflexivity|].
    rewrite !elem_of_app. intros [H|[H|[H|H]]]; exfalso.
    + unfold Report.heading in H.
      rewrite !elem_of_cons, elem_of_nil in H.
      destruct H as [H|[H|[]]]; discriminate H.
    + apply list_elem_of_singleton in H. discriminate H.
    + exact (ReportFacts.forEach_not_all_clear 0 (f :: fs) H).
    + unfold Report.hints in H. rewrite !elem_of_cons, elem_of_nil in H.
      destruct H as [H|[H|[H|[H|[]]]]]; discriminate H.
  - intros ->. apply elem_of_app. right. apply list_elem_of_here.
Qed.

(** When the server answers every request with a successful status and
    the static files are on disk, the run records nothing and the report is
    the heading followed by the all-clear line. *)
Theorem run_all_clear :
  forall (net : nat -> Method -> string -> Outcome) (cwd : string)
         (path_join : string -> string -> string) (existsSync : string -> bool),
    always_ok net ->
    (forall file, file ∈ staticFiles -> existsSync (path_join cwd file) = true) ->
    brokenLinks (run net cwd path_join existsSync) = [] /\
    Report.displayResults (run net cwd path_join existsSync)
    = Report.heading ++ [Report.all_clear].
Proof.
  intros net cwd path_join existsSync Hnet Hdisk.
  assert (H : brokenLinks (run net cwd path_join existsSync) = []).
  { unfold run. rewrite checkStaticFiles_spec. cbn [brokenLinks].
    assert (filter (is_missing cwd path_join existsSync) staticFiles = []) as ->.
    { destruct (filter (is_missing cwd path_join existsSync) staticFiles)
        as [|f fs] eqn:E; [reflexivity|].
      assert (Hf : f ∈ filter (is_missing cwd path_join existsSync) staticFiles)
        by (rewrite E; left).
      apply list_elem_of_filter in Hf as [Hmiss Hin].
      unfold is_missing in Hmiss. rewrite (Hdisk f Hin) in Hmiss.
      discriminate Hmiss. }
    rewrite app_nil_r.
    apply (checkPages_preserves net PAGES_TO_CHECK
             (fun st => brokenLinks st = [])).
    - intros page st _ _ H. exact H.
    - intros page code text st _ E Hok _.
      destruct (Hnet (length (trace st)) GET (BASE_URL +:+ page))
        as (code' & text' & E' & Hok').
      rewrite E in E'. injection E' as -> _. congruence.
    - intros p l st _ _ Hout H. rewrite checkLink_fresh by exact Hout.
      cbn [brokenLinks]. rewrite H.
      destruct (Hnet (length (trace st)) HEAD (BASE_URL +:+ normalizeLink l))
        as (code' & text' & -> & Hok').
      simpl. rewrite Hok'. reflexivity.
    - auto.
    - rewrite checkServerStatus_constructor. reflexivity. }
  split; [exact H|]. unfold Report.displayResults. rewrite H. reflexivity.
Qed.

Lemma run_all_clear_witness :
  (always_ok net_empty_pages /\
   (forall file, file ∈ staticFiles ->
                 (fun _ : string => true) (join_slash "/repo" file) = true)) /\
  brokenLinks (run net_empty_pages "/repo" join_slash (fun _ => true)) = [] /\
  Report.displayResults (run net_empty_pages "/repo" join_slash (fun _ => true))
  = Report.heading ++ [Report.all_clear].
Proof.
  assert (Hnet : always_ok net_empty_pages).
  { intros n m u. exists 200%Z, (Some ""). split; reflexivity. }
  assert (Hdisk : forall file, file ∈ staticFiles ->
                    (fun _ : string => true) (join_slash "/repo" file) = true)
    by reflexivity.
  split; [split; assumption|].
  exact (run_all_clear net_empty_pages "/repo" join_slash (fun _ => true)
           Hnet Hdisk).
Defined.

(** At the end of a run [checkedLinks] holds exactly the raw links for
    which an existence check was sent. *)
Theorem checkedLinks_exact :
  forall (net : nat -> Method -> string -> Outcome) (cwd : string)
         (path_join : string -> string -> string) (existsSync : string -> bool)
         (l : string),
    l ∈ checkedLinks (run net cwd path_join existsSync) <->
    l ∈ checkedRaw (trace (run net cwd path_join existsSync)).
Proof.
  intros net cwd path_join existsSync. unfold run.
  rewrite checkStaticFiles_spec. cbn [checkedLinks trace].
  apply (checkPages_preserves net PAGES_TO_CHECK
           (fun st => forall l, l ∈ checkedLinks st <-> l ∈ checkedRaw (trace st))).
  - intros page st _ _ H l. unfold checkedRaw.
    cbn [fetched fetch snd trace checkedLinks]. rewrite omap_app.
    cbn. rewrite app_nil_r. apply H.
  - intros page code text st _ _ _ H l. unfold checkedRaw.
    cbn [push fetched fetch snd trace checkedLinks]. rewrite omap_app.
    cbn. rewrite app_nil_r. apply H.
  - intros p x st _ _ Hout H l. rewrite checkLink_fresh by exact Hout.
    unfold checkedRaw. cbn [trace checkedLinks]. rewrite omap_app. cbn.
    rewrite elem_of_app, list_elem_of_singleton, elem_of_union,
      elem_of_singleton. specialize (H l). unfold checkedRaw in H. tauto.
  - auto.
  - rewrite checkServerStatus_constructor. intros l. cbn.
    rewrite elem_of_nil. set_solver.
Qed.

(** ** The static files, exactly *)

(** [checkStaticFiles] appends to [brokenLinks], in the order of its own
    list of two files, one NOT_FOUND file finding for each of them that is
    absent from the disk, each such file once; the findings recorded before
    stay in place, no request is sent, and [checkedLinks] and
    [serverRunning] are left as they are. *)
Theorem checkStaticFiles_exact :
  forall (cwd : string) (path_join : string -> string -> string)
         (existsSync : string -> bool) (st : State),
    let st' := checkStaticFiles cwd path_join existsSync st in
    let missing := filter (is_missing cwd path_join existsSync) staticFiles in
    brokenLinks st' = brokenLinks st ++ map missing_file missing /\
    NoDup missing /\
    length (brokenLinks st') = length (brokenLinks st) + length missing /\
    trace st' = trace st /\
    checkedLinks st' = checkedLinks st /\
    serverRunning st' = serverRunning st.
Proof.
  intros cwd path_join existsSync st st' missing. subst st'.
  rewrite checkStaticFiles_spec. cbn [brokenLinks trace checkedLinks serverRunning].
  split; [reflexivity|]. split.
  - apply NoDup_filter, NoDup_cons. split; [|apply NoDup_singleton].
    rewrite list_elem_of_singleton. discriminate.
  - rewrite length_app, length_map. repeat split.
Qed.

Example checkStaticFiles_one_missing :
  brokenLinks
    (checkStaticFiles "/repo" join_slash
       (disk_without "/repo/public/netnet_result.html")
       {| brokenLinks := []; checkedLinks := ∅; serverRunning := false;
          trace := [] |})
  = [ missing_file "public/netnet_result.html" ].
Proof. vm_compute. reflexivity. Qed.

(** ** What the reporter prints *)

Module PrintedFacts.
Import Report.

Lemma split_lines_free (s : string) :
  newline_free s = true -> split_lines s = [s].
Proof.
  induction s as [|c s IH]; [reflexivity|]. simpl.
  intros H. apply andb_prop in H as [Hc Hs]. apply negb_true_iff in Hc.
  rewrite Hc, (IH Hs). reflexivity.
Qed.

Lemma split_lines_trailing (s : string) :
  newline_free s = true -> split_lines (s +:+ newline) = [s; ""].
Proof.
  induction s as [|c s IH]; [reflexivity|]. simpl.
  intros H. apply andb_prop in H as [Hc Hs]. apply negb_true_iff in Hc.
  rewrite Hc, (IH Hs). reflexivity.
Qed.

Lemma newline_free_append (a b : string) :
  newline_free (a +:+ b) = newline_free a && newline_free b.
Proof.
  induction a as [|c a IH]; [reflexivity|]. simpl.
  rewrite IH, andb_assoc. reflexivity.
Qed.

Lemma uint_newline_free (d : Decimal.uint) :
  newline_free (NilEmpty.string_of_uint d) = true.
Proof. induction d; simpl; auto. Qed.

Lemma nat_text_free (n : nat) : newline_free (nat_text n) = true.
Proof.
  unfold nat_text, NilZero.string_of_uint.
  destruct (Nat.to_uint n); try reflexivity; apply uint_newline_free.
Qed.

Lemma Z_text_free (z : Z) : newline_free (Z_text z) = true.
Proof.
  unfold Z_text, NilZero.string_of_int, NilZero.string_of_uint.
  destruct (Z.to_int z) as [d|d]; destruct d;
    try reflexivity; apply uint_newline_free.
Qed.

Lemma printed_app (a b : list string) :
  printed (a ++ b) = printed a ++ printed b.
Proof. unfold printed. rewrite map_app, concat_app. reflexivity. Qed.

Lemma printed_free (calls : list string) :
  Forall (fun s => newline_free s = true) calls -> printed calls = calls.
Proof.
  induction 1 as [|s calls Hs _ IH]; [reflexivity|].
  unfold printed in *. simpl. rewrite (split_lines_free s Hs), IH. reflexivity.
Qed.

Lemma block_free (index : nat) (f : Finding) :
  plain f = true ->
  Forall (fun s => newline_free s = true) (block index f).
Proof.
  unfold plain. intros H.
  apply andb_prop in H as [H He]. apply andb_prop in H as [Hp Hl].
  unfold block. apply Forall_app. split; [|apply Forall_app; split].
  - repeat (apply Forall_cons; split); [| | | |apply Forall_nil_2]; cbn beta.
    + rewrite !newline_free_append, nat_text_free.
      destruct (type f); reflexivity.
    + rewrite newline_free_append, Hp. reflexivity.
    + rewrite newline_free_append, Hl. reflexivity.
    + rewrite newline_free_append.
      destruct (status f); cbn [status_text]; rewrite ?Z_text_free;
        reflexivity.
  - destruct (error f) as [[|c m]|]; try apply Forall_nil_2.
    apply Forall_singleton. rewrite newline_free_append, He. reflexivity.
  - apply Forall_singleton. reflexivity.
Qed.

Lemma forEach_free (index : nat) (findings : list Finding) :
  Forall (fun f => plain f = true) findings ->
  Forall (fun s => newline_free s = true) (forEach index findings).
Proof.
  intros H. revert index.
  induction H as [|f fs Hf _ IH]; intros index; cbn [forEach].
  - apply Forall_nil_2.
  - apply Forall_app. split; [apply block_free, Hf|apply IH].
Qed.

Lemma count_line_text (n : nat) : count_line n = count_text n +:+ newline.
Proof. unfold count_line, count_text. rewrite !append_assoc_s. reflexivity. Qed.

Lemma count_text_free (n : nat) : newline_free (count_text n) = true.
Proof.
  unfold count_text. rewrite !newline_free_append, nat_text_free. reflexivity.
Qed.

Lemma printed_count_line (n : nat) :
  printed [count_line n] = [count_text n; ""].
Proof.
  unfold printed. cbn [map concat]. rewrite app_nil_r, count_line_text.
  apply split_lines_trailing, count_text_free.
Qed.

End PrintedFacts.

Lemma displayResults_printed (st : State) :
  Forall (fun f => Report.plain f = true) (brokenLinks st) ->
  Report.printed (Report.displayResults st)
  = Report.heading_lines ++
    match brokenLinks st with
    | [] => [ Report.all_clear ]
    | _ :: _ =>
        [ Report.count_text (length (brokenLinks st)); "" ]
        ++ Report.forEach 0 (brokenLinks st)
        ++ Report.hints
    end.
Proof.
  intros Hplain. unfold Report.displayResults.
  rewrite PrintedFacts.printed_app. f_equal.
  destruct (brokenLinks st) as [|f fs]; [reflexivity|].
  rewrite !PrintedFacts.printed_app, PrintedFacts.printed_count_line.
  rewrite (PrintedFacts.printed_free (Report.forEach 0 (f :: fs)))
    by (apply PrintedFacts.forEach_free, Hplain).
  reflexivity.
Qed.

(** What the reporter writes when no page, link or error text of a finding
    contains a line break.  With no finding: an empty line, the heading,
    the rule and the all-clear line, four lines.  Otherwise: the empty
    line, the heading, the rule, the count, an empty line, the block of
    each finding in order and the four lines of hints, that is nine fixed
    lines, five lines for each finding and one more for each finding with
    a non-empty error message. *)
Theorem displayResults_printed_lines :
  forall st : State,
    Forall (fun f => Report.plain f = true) (brokenLinks st) ->
    Report.printed (Report.displayResults st)
    = Report.heading_lines ++
      match brokenLinks st with
      | [] => [ Report.all_clear ]
      | _ :: _ =>
          [ Report.count_text (length (brokenLinks st)); "" ]
          ++ Report.forEach 0 (brokenLinks st)
          ++ Report.hints
      end /\
    length (Report.printed (Report.displayResults st))
    = match brokenLinks st with
      | [] => 4
      | _ :: _ =>
          9 + 5 * length (brokenLinks st)
          + length (filter (fun f => Report.truthy (error f)) (brokenLinks st))
      end.
Proof.
  intros st Hplain. split; [apply displayResults_printed, Hplain|].
  rewrite (displayResults_printed st Hplain).
  destruct (brokenLinks st) as [|f fs]; [reflexivity|].
  rewrite !length_app, ReportFacts.forEach_length. simpl length. lia.
Qed.

Lemma displayResults_printed_lines_witness :
  Forall (fun f => Report.plain f = true) (brokenLinks one_timeout) /\
  Report.printed (Report.displayResults one_timeout)
  = Report.heading_lines ++
    [ Report.count_text 1; "" ]
    ++ Report.forEach 0 (brokenLinks one_timeout)
    ++ Report.hints /\
  length (Report.printed (Report.displayResults one_timeout)) = 9 + 5 * 1 + 1.
Proof.
  assert (H : Forall (fun f => Report.plain f = true) (brokenLinks one_timeout))
    by (repeat constructor).
  split; [exact H|]. exact (displayResults_printed_lines one_timeout H).
Defined.

Example printed_one_timeout :
  Report.printed (Report.displayResults one_timeout)
  = [ ""; "📊 チェック結果";
      "==================================================";
      "❌ 1個のリンクに問題があります:"; "";
      "1. LINK"; "   ページ: /blogs"; "   リンク: /x";
      "   ステータス: TIMEOUT"; "   エラー: socket hang up"; "";
      "💡 修正方法:";
      "   - 存在しないページ: ページを作成するか、リンクを削除";
      "   - 404エラー: ファイルパスを確認";
      "   - タイムアウト: サーバーが起動しているか確認" ].
Proof. vm_compute. reflexivity. Qed.

(** A link text with a line break in it can put any line into the output,
    the all-clear line included; hence the condition of the next
    theorem. *)
Example printed_forged_all_clear :
  let forged :=
    {| page := "/"; link := "/a" +:+ Report.newline +:+ Report.all_clear;
       status := StatusCode 404; type := KindLink; error := None |} in
  let st := {| brokenLinks := [forged]; checkedLinks := ∅;
               serverRunning := true; trace := [] |} in
  Report.plain forged = false /\
  Report.all_clear ∈ Report.printed (Report.displayResults st) /\
  Report.all_clear ∉ Report.displayResults st.
Proof.
  split; [reflexivity|]. split.
  - vm_compute.
    repeat first [apply list_elem_of_here | apply list_elem_of_further].
  - intros H. apply displayResults_all_clear_iff in H. discriminate H.
Qed.

(** When no page, link or error text of a finding contains a line break,
    the all-clear line appears in the output exactly when no finding was
    recorded. *)
Theorem printed_all_clear_iff :
  forall st : State,
    Forall (fun f => Report.plain f = true) (brokenLinks st) ->
    (Report.all_clear ∈ Report.printed (Report.displayResults st)
     <-> brokenLinks st = []).
Proof.
  intros st Hplain. rewrite (displayResults_printed st Hplain). split.
  - destruct (brokenLinks st) as [|f fs]; [reflexivity|].
    rewrite !elem_of_app. intros [H|[H|[H|H]]]; exfalso.
    + unfold Report.heading_lines in H.
      rewrite !elem_of_cons, elem_of_nil in H.
      destruct H as [H|[H|[H|[]]]]; discriminate H.
    + rewrite !elem_of_cons, elem_of_nil in H.
      destruct H as [H|[H|[]]]; discriminate H.
    + exact (ReportFacts.forEach_not_all_clear 0 (f :: fs) H).
    + unfold Report.hints in H. rewrite !elem_of_cons, elem_of_nil in H.
      destruct H as [H|[H|[H|[H|[]]]]]; discriminate H.
  - intros ->. apply elem_of_app. right. apply list_elem_of_here.
Qed.

Lemma printed_all_clear_iff_witness :
  Forall (fun f => Report.plain f = true) (brokenLinks one_timeout) /\
  (Report.all_clear ∈ Report.printed (Report.displayResults one_timeout)
   <-> brokenLinks one_timeout = []).
Proof.
  assert (H : Forall (fun f => Report.plain f = true) (brokenLinks one_timeout))
    by (repeat constructor).
  split; [exact H|]. exact (printed_all_clear_iff one_timeout H).
Defined.
